(** * Aggregation and segmentation engine of [ve_app.py] (KingFoodMart)

    A shallow embedding of the data-processing part of the dashboard:
    [load_data_optimized] (MongoDB pipeline plus the per-product Python
    loop), [apply_clustering_improved], [filter_by_date_range_optimized]
    (with its [except] fallback), [categorize_price_segment], the second
    [calculate_segment_analysis], the KPI cards, the daily chart and
    [format_number].

    Modelling choices:
    - a pandas DataFrame is a list of [row] records, a column a list;
    - a number of the data (an int, a long or a double) is its exact value,
      a rational ([Q]); sums and products of doubles are computed exactly,
      so rounding errors of float arithmetic are not modelled, nor NaN,
      infinities or Decimal128 values;
    - a movement quantity is a number, [null], or a value of another type
      ([QOther]: a string, a bool, a list, ...); an absent key is [None];
    - a Python [str] is its list of Unicode code points ([ustring]);
      [datetime.strptime(s, '%Y-%m-%d').date()] is [strptime_ymd], whose
      [\d] matches every Unicode decimal digit (Unicode 14.0, the database
      of Python 3.11);
    - a dict entry of [stock_history] is [EDict], anything else [ENotDict];
    - percentiles and percentages are exact rationals. *)

From Stdlib Require Import ZArith QArith Qround Qabs List String Ascii Bool Lia Lqa.
From Stdlib Require Import Sorting.Sorted Sorting.Permutation.
Import ListNotations.
Open Scope Z_scope.

(** ** Unicode strings and dates *)

(** A Python [str]: its code points. *)
Definition ustring := list Z.

(** An ASCII literal as a [str]. *)
Definition ustr (s : string) : ustring :=
  map (fun c => Z.of_nat (nat_of_ascii c)) (list_ascii_of_string s).

(** The code points of value 0 of the 66 runs of Unicode decimal digits
    (category Nd); each run holds the digits 0 to 9 in order. *)
Definition nd_zero_points : list Z :=
  [48; 1632; 1776; 1984; 2406; 2534; 2662; 2790; 2918; 3046; 3174; 3302;
   3430; 3558; 3664; 3792; 3872; 4160; 4240; 6112; 6160; 6470; 6608; 6784;
   6800; 6992; 7088; 7232; 7248; 42528; 43216; 43264; 43472; 43504; 43600;
   44016; 65296; 66720; 68912; 69734; 69872; 69942; 70096; 70384; 70736;
   70864; 71248; 71360; 71472; 71904; 72016; 72784; 73040; 73120; 92768;
   92864; 93008; 120782; 120792; 120802; 120812; 120822; 123200; 123632;
   125264; 130032].

(** The decimal value of a code point, [None] when it is not in Nd. *)
Definition unicode_decimal (c : Z) : option Z :=
  match find (fun b => (b <=? c) && (c <? b + 10)) nd_zero_points with
  | Some b => Some (c - b)
  | None => None
  end.

(** [\d] of a [str] pattern. *)
Definition is_udigit (c : Z) : bool :=
  match unicode_decimal c with Some _ => true | None => false end.

(** An ASCII class [[lo-hi]]. *)
Definition in_crange (lo hi c : Z) : bool := (lo <=? c) && (c <=? hi).

(** [int(s)] of a string of decimal digits. *)
Definition int_of_udigits (s : ustring) : Z :=
  fold_left (fun acc c => acc * 10 + match unicode_decimal c with
                                     | Some v => v | None => 0 end) s 0.

Record date := mkdate { year : Z; month : Z; day : Z }.

(** Python compares [datetime.date] values lexicographically on
    (year, month, day); for valid dates ([month <= 12], [day <= 31]) this
    is the order of [date_key]. *)
Definition date_key (d : date) : Z := year d * 10000 + month d * 100 + day d.

Definition date_leb (a b : date) : bool := date_key a <=? date_key b.

(** Split on ['-'] (code point 45). *)
Fixpoint split_dash (s : ustring) : list ustring :=
  match s with
  | [] => [[]]
  | c :: r =>
      if c =? 45 then [] :: split_dash r
      else match split_dash r with
           | [] => [[c]]
           | w :: ws => (c :: w) :: ws
           end
  end.

(** The regex of [%Y] in [_strptime]: [\d\d\d\d]. *)
Definition match_Y (s : ustring) : bool :=
  match s with
  | [a; b; c; d] => is_udigit a && is_udigit b && is_udigit c && is_udigit d
  | _ => false
  end.

(** The regex of [%m]: [1[0-2]|0[1-9]|[1-9]]. *)
Definition match_m (s : ustring) : bool :=
  match s with
  | [a; b] => ((a =? 49) && in_crange 48 50 b) || ((a =? 48) && in_crange 49 57 b)
  | [a] => in_crange 49 57 a
  | _ => false
  end.

(** The regex of [%d]: [3[0-1]|[1-2]\d|0[1-9]|[1-9]| [1-9]]. *)
Definition match_d (s : ustring) : bool :=
  match s with
  | [a; b] =>
      ((a =? 51) && in_crange 48 49 b)
      || (in_crange 49 50 a && is_udigit b)
      || ((a =? 48) && in_crange 49 57 b)
      || ((a =? 32) && in_crange 49 57 b)
  | [a] => in_crange 49 57 a
  | _ => false
  end.

(** [int()] of a [%d] group ([int] strips the leading blank). *)
Definition day_val (s : ustring) : Z :=
  match s with
  | a :: r => if a =? 32 then int_of_udigits r else int_of_udigits s
  | [] => 0
  end.

Definition is_leap (y : Z) : bool :=
  (Z.eqb (y mod 4) 0 && negb (Z.eqb (y mod 100) 0)) || Z.eqb (y mod 400) 0.

Definition days_in_month (y m : Z) : Z :=
  if Z.eqb m 2 then (if is_leap y then 29 else 28)
  else if existsb (Z.eqb m) [4; 6; 9; 11] then 30 else 31.

(** [datetime.strptime(s, '%Y-%m-%d').date()]: [None] where Python raises
    [ValueError] (no match of the whole string, year 0, day past the end
    of the month). *)
Definition strptime_ymd (s : ustring) : option date :=
  match split_dash s with
  | [ys; ms; ds] =>
      if match_Y ys && match_m ms && match_d ds then
        let y := int_of_udigits ys in
        let m := int_of_udigits ms in
        let d := day_val ds in
        if (1 <=? y) && (d <=? days_in_month y m) then Some (mkdate y m d)
        else None
      else None
  | _ => None
  end.

(** ** Numbers *)

Open Scope Q_scope.

(** [max(0, x)] and [{$max: [x, 0]}]. *)
Definition qmax0 (x : Q) : Q := if Qle_bool x 0 then 0 else x.

(** Round half to even: Python's [round(x, 0)] and MongoDB's
    [{$round: [x, 0]}]. *)
Definition round_half_even (x : Q) : Z :=
  let f := Qfloor x in
  match Qcompare (x - inject_Z f) (1 # 2) with
  | Lt => f
  | Gt => (f + 1)%Z
  | Eq => if Z.even f then f else (f + 1)%Z
  end.

Definition Qsum (l : list Q) : Q := fold_right Qplus 0 l.

Definition Qltb (x y : Q) : bool := negb (Qle_bool y x).

Close Scope Q_scope.

(** ** Movement entries and rows *)

(** The ['date'] value of an entry: a string, or a value of another type
    (on which [strptime] raises [TypeError]). *)
Inductive date_value := DStr (s : ustring) | DOther.

(** A quantity value: a number, [null], or a value of another type, on
    which [float] gives [f] ([None]: [float] raises). *)
Inductive qvalue := QNum (x : Q) | QNull | QOther (f : option Q).

Record mentry := {
  e_date : option date_value;          (* None: no 'date' key *)
  e_stock_decreased : option qvalue;   (* None: no 'stock_decreased' key *)
  e_stock_increased : option qvalue
}.

Inductive entry := EDict (m : mentry) | ENotDict.

(** The date an entry contributes, [None] when Python skips it. *)
Definition entry_date (e : entry) : option date :=
  match e with
  | EDict m =>
      match e_date m with
      | Some (DStr s) => strptime_ymd s
      | _ => None
      end
  | ENotDict => None
  end.

Inductive segment := Thap | TrungBinh | Cao | KhongXacDinh.

(** A document of the collection; [p_price] is [None] when the field is
    absent or not a number. *)
Record raw_product := {
  p_id : string;
  p_name : option string;
  p_category : option string;
  p_price : option Q;
  p_promotion : option string;
  p_stock_history : option (list entry)
}.

Record row := {
  r_id : string;
  r_name : string;
  r_category : string;
  r_price : Z;
  r_promotion : string;
  r_total_sold : Z;
  r_revenue : Q;
  r_total_stock_increased : Z;
  r_stock_revenue : Q;
  r_stock_history : list entry;
  r_segment : option segment;        (* column absent or NaN: None *)
  r_quantity_sold : option Q;
  r_stock_remaining : option Q
}.

Definition default {A} (d : A) (o : option A) : A :=
  match o with Some x => x | None => d end.

(** ** [load_data_optimized] *)

(** The [$match] stage: [{"price": {"$gt": 0, "$lt": 1000000000}}]. *)
Definition pipeline_match (p : raw_product) : bool :=
  match p_price p with
  | Some pr => Qltb 0 pr && Qltb pr (inject_Z 1000000000)
  | None => false
  end.

(** [$slice: [{$ifNull: ["$stock_history", []]}, 100]]. *)
Definition fetched_history (p : raw_product) : list entry :=
  firstn 100 (default [] (p_stock_history p)).

(** [{$max: [{$ifNull: [v, 0]}, 0]}] as [$sum] counts it: a number
    contributes [max(v, 0)]; [null], an absent field and a value of another
    type contribute 0 ([$max] of a non-numeric value and 0 is that value,
    which [$sum] ignores); on an entry that is not a document the field
    path is missing. *)
Definition mongo_qty (v : option qvalue) : Q :=
  match v with
  | Some (QNum x) => qmax0 x
  | _ => 0%Q
  end.

Definition mongo_dec (e : entry) : Q :=
  match e with EDict m => mongo_qty (e_stock_decreased m) | ENotDict => 0%Q end.

Definition mongo_inc (e : entry) : Q :=
  match e with EDict m => mongo_qty (e_stock_increased m) | ENotDict => 0%Q end.

(** The [$addFields] stage. *)
Definition pipeline_total_sold (p : raw_product) : Q :=
  Qsum (map mongo_dec (fetched_history p)).

Definition pipeline_total_stock_increased (p : raw_product) : Q :=
  Qsum (map mongo_inc (fetched_history p)).

(** The body of [for product in cursor]: the price is the [$round]ed one,
    [total_sold] and [revenue] are [round(_, 0)] of the pipeline's
    unrounded sum. *)
Definition load_product (p : raw_product) : option row :=
  if pipeline_match p then
    let price := Z.max 1000 (round_half_even (default (inject_Z 1000) (p_price p))) in
    let total_sold := qmax0 (pipeline_total_sold p) in
    let total_stock_increased := qmax0 (pipeline_total_stock_increased p) in
    let stock_history := firstn 50 (fetched_history p) in
    Some {| r_id := p_id p;
            r_name := default EmptyString (p_name p);
            r_category := default EmptyString (p_category p);
            r_price := price;
            r_promotion := default EmptyString (p_promotion p);
            r_total_sold := round_half_even total_sold;
            r_revenue := inject_Z (round_half_even (inject_Z price * total_sold));
            r_total_stock_increased := round_half_even total_stock_increased;
            r_stock_revenue :=
              inject_Z (round_half_even (inject_Z price * total_stock_increased));
            r_stock_history := stock_history;
            r_segment := None;
            r_quantity_sold := None;
            r_stock_remaining := None |}
  else None.

(** The dates added to [all_dates] by one product: the entries that are
    dicts with a ['date'] key parsing under [strptime]; the others are
    skipped by [continue]. *)
Definition product_dates (r : row) : list date :=
  flat_map (fun e => match entry_date e with Some d => [d] | None => [] end)
           (r_stock_history r).

Definition min_date_of (d : date) (l : list date) : date :=
  fold_left (fun a b => if date_leb b a then b else a) l d.

Definition max_date_of (d : date) (l : list date) : date :=
  fold_left (fun a b => if date_leb a b then b else a) l d.

Definition load_data_optimized (raws : list raw_product) : list row * date * date :=
  let all_data := flat_map (fun p => match load_product p with
                                     | Some r => [r] | None => [] end) raws in
  let all_dates := flat_map product_dates all_data in
  match all_dates with
  | [] => (all_data, mkdate 2025 3 5, mkdate 2025 5 25)
  | d :: ds => (all_data, min_date_of d ds, max_date_of d ds)
  end.

(** ** Percentiles (pandas [Series.quantile], linear interpolation) *)

Open Scope Q_scope.

Fixpoint insertQ (x : Q) (l : list Q) : list Q :=
  match l with
  | [] => [x]
  | y :: t => if Qle_bool x y then x :: y :: t else y :: insertQ x t
  end.

Definition sortQ (l : list Q) : list Q := fold_right insertQ [] l.

(** The non-NaN values of a column. *)
Fixpoint somes (col : list (option Q)) : list Q :=
  match col with
  | [] => []
  | Some x :: t => x :: somes t
  | None :: t => somes t
  end.

(** Linear interpolation at position [pos] of the sorted values [v]. *)
Definition lerp_at (v : list Q) (pos : Q) : Q :=
  let lo := Qfloor pos in
  let frac := pos - inject_Z lo in
  let a := nth (Z.to_nat lo) v 0 in
  let b := nth (S (Z.to_nat lo)) v a in
  a + frac * (b - a).

(** [quantile(q)], [None] for NaN (no non-NaN value). *)
Definition quantile (q : Q) (col : list (option Q)) : option Q :=
  match sortQ (somes col) with
  | [] => None
  | v => Some (lerp_at v (q * inject_Z (Z.of_nat (List.length v) - 1)))
  end.


(** [min()] and [max()] of a column, skipping NaN. *)
Definition col_min (col : list (option Q)) : Q :=
  match somes col with
  | [] => 0
  | x :: t => fold_left (fun a b => if Qle_bool b a then b else a) t x
  end.

Definition col_max (col : list (option Q)) : Q :=
  match somes col with
  | [] => 0
  | x :: t => fold_left (fun a b => if Qle_bool a b then b else a) t x
  end.

Definition price_column (df : list row) : list (option Q) :=
  map (fun r => Some (inject_Z (r_price r))) df.

Close Scope Q_scope.

(** ** Row updates ([df['col'] = ...] on a copy) *)

Definition set_segment (s : option segment) (r : row) : row :=
  {| r_id := r_id r; r_name := r_name r; r_category := r_category r;
     r_price := r_price r; r_promotion := r_promotion r;
     r_total_sold := r_total_sold r; r_revenue := r_revenue r;
     r_total_stock_increased := r_total_stock_increased r;
     r_stock_revenue := r_stock_revenue r;
     r_stock_history := r_stock_history r; r_segment := s;
     r_quantity_sold := r_quantity_sold r;
     r_stock_remaining := r_stock_remaining r |}.

(** [df['quantity_sold'] = df['total_sold']] and
    [df['stock_remaining'] = df['total_stock_increased']]. *)
Definition set_lifetime_metrics (r : row) : row :=
  {| r_id := r_id r; r_name := r_name r; r_category := r_category r;
     r_price := r_price r; r_promotion := r_promotion r;
     r_total_sold := r_total_sold r; r_revenue := r_revenue r;
     r_total_stock_increased := r_total_stock_increased r;
     r_stock_revenue := r_stock_revenue r;
     r_stock_history := r_stock_history r; r_segment := r_segment r;
     r_quantity_sold := Some (inject_Z (r_total_sold r));
     r_stock_remaining := Some (inject_Z (r_total_stock_increased r)) |}.

(** [df['segment'] = column], column assigned positionally. *)
Definition assign_segments (df : list row) (col : list segment) : list row :=
  map (fun '(r, s) => set_segment (Some s) r) (combine df col).

(** ** [apply_clustering_improved] *)

Definition nunique (l : list Z) : nat := List.length (nodup Z.eq_dec l).

(** The inner [categorize_price] with the 0.33/0.67 quantiles. *)
Definition categorize_price (p25 p75 : Q) (price : option Q) : segment :=
  match price with
  | None => KhongXacDinh
  | Some x =>
      if Qle_bool x p25 then Thap
      else if Qle_bool x p75 then TrungBinh
      else Cao
  end.

(** The segment column of [apply_clustering_improved]; the price column
    of a loaded frame has no NaN and the [len(df) > 1] guard makes both
    quantiles defined, so the [except] fallback is never taken. *)
Definition clustering_segments (df : list row) : list segment :=
  let col := price_column df in
  if (1 <? List.length df)%nat && (1 <? nunique (map r_price df))%nat then
    let p25 := default 0%Q (quantile (33 # 100) col) in
    let p75 := default 0%Q (quantile (67 # 100) col) in
    map (categorize_price p25 p75) col
  else map (fun _ => TrungBinh) df.

Definition apply_clustering_improved (df : list row) : list row :=
  match df with
  | [] => df
  | _ =>
      let df1 := map set_lifetime_metrics df in
      assign_segments df1 (clustering_segments df1)
  end.

(** ** [filter_by_date_range_optimized] *)

Definition in_window (start_date end_date : date) (e : entry) : bool :=
  match entry_date e with
  | Some d => date_leb start_date d && date_leb d end_date
  | None => false
  end.

(** [filter_stock_history]: the dict entries with a date in the window
    ([strptime] errors are caught by its [except: continue]). *)
Definition filter_stock_history (start_date end_date : date) (h : list entry)
  : list entry :=
  filter (in_window start_date end_date) h.

(** [float(entry.get(k, 0))]: [None] where [float] raises ([float(None)]
    raises [TypeError]). *)
Definition py_float (v : option qvalue) : option Q :=
  match v with
  | None => Some 0%Q
  | Some (QNum x) => Some x
  | Some QNull => None
  | Some (QOther f) => f
  end.

(** [max(0, float(entry.get('stock_decreased', 0)))]; an entry that is not
    a dict is skipped by the loop and adds nothing. *)
Definition py_dec (e : entry) : option Q :=
  match e with
  | EDict m => option_map qmax0 (py_float (e_stock_decreased m))
  | ENotDict => Some 0%Q
  end.

Definition py_inc (e : entry) : option Q :=
  match e with
  | EDict m => option_map qmax0 (py_float (e_stock_increased m))
  | ENotDict => Some 0%Q
  end.

(** The running sum [total += ...] of the loop, [None] as soon as one term
    raises. *)
Fixpoint sum_opt (l : list (option Q)) : option Q :=
  match l with
  | [] => Some 0%Q
  | o :: t =>
      match o, sum_opt t with
      | Some x, Some s => Some (x + s)%Q
      | _, _ => None
      end
  end.

(** [filter_stock_history] followed by [recalculate_metrics] on one row;
    [None] when [recalculate_metrics] raises. *)
Definition recalculate_row (start_date end_date : date) (r : row) : option row :=
  let h := filter_stock_history start_date end_date (r_stock_history r) in
  match sum_opt (map py_dec h), sum_opt (map py_inc h) with
  | Some total_sold, Some total_stock_increased =>
      Some {| r_id := r_id r; r_name := r_name r; r_category := r_category r;
              r_price := r_price r; r_promotion := r_promotion r;
              r_total_sold := r_total_sold r;
              r_revenue := (inject_Z (r_price r) * total_sold)%Q;
              r_total_stock_increased := r_total_stock_increased r;
              r_stock_revenue := (inject_Z (r_price r) * total_stock_increased)%Q;
              r_stock_history := h; r_segment := r_segment r;
              r_quantity_sold := Some total_sold;
              r_stock_remaining := Some total_stock_increased |}
  | _, _ => None
  end.

(** [filtered_df.apply(recalculate_metrics, axis=1)]: [None] when one row
    raises. *)
Fixpoint map_opt {A B} (f : A -> option B) (l : list A) : option (list B) :=
  match l with
  | [] => Some []
  | x :: t =>
      match f x with
      | Some y => option_map (cons y) (map_opt f t)
      | None => None
      end
  end.

(** The whole function: an exception anywhere in the [try] returns the
    input frame [df] unchanged. *)
Definition filter_by_date_range_optimized (df : list row) (start_date end_date : date)
  : list row :=
  match df with
  | [] => df
  | _ =>
      match map_opt (recalculate_row start_date end_date) df with
      | Some df' => df'
      | None => df
      end
  end.

(** The [try] block completes: every row's recomputation succeeds. *)
Definition window_recomputes (df : list row) (start_date end_date : date) : bool :=
  match map_opt (recalculate_row start_date end_date) df with
  | Some _ => true
  | None => false
  end.
(** ** [categorize_price_segment] *)

Definition is_none {A} (o : option A) : bool :=
  match o with None => true | Some _ => false end.

Definition classify_segment (p25 p75 : Q) (price : option Q) : segment :=
  match price with
  | None => KhongXacDinh
  | Some x =>
      if Qle_bool x p25 then Thap
      else if Qle_bool x p75 then TrungBinh
      else Cao
  end.

(** [lambda x: 'Thấp' if x < price_mid else 'Cao']; a NaN price compares
    false and lands in ['Cao']. *)
Definition split_at_mid (mid : Q) (price : option Q) : segment :=
  match price with
  | Some x => if Qltb x mid then Thap else Cao
  | None => Cao
  end.

(** The segment column the function assigns, from the price column. *)
Definition categorize_price_column (col : list (option Q)) : list segment :=
  if forallb is_none col then map (fun _ => KhongXacDinh) col
  else
    match quantile (1 # 4) col, quantile (3 # 4) col with
    | Some p25, Some p75 =>
        if Qeq_bool p25 p75 then
          let price_min := col_min col in
          let price_max := col_max col in
          if Qeq_bool price_min price_max then map (fun _ => TrungBinh) col
          else
            let price_mid := ((price_min + price_max) / 2)%Q in
            map (split_at_mid price_mid) col
        else map (classify_segment p25 p75) col
    | _, _ => map (fun _ => KhongXacDinh) col  (* unreachable: a price is non-NaN *)
    end.

Definition categorize_price_segment (df : list row) : list row :=
  assign_segments df (categorize_price_column (price_column df)).

(** The three tiers a price can be put in. *)
Definition known_tier (s : segment) : Prop :=
  s = Thap \/ s = TrungBinh \/ s = Cao.

(** ** The second [calculate_segment_analysis] *)

Inductive display_mode := BanHang | TonKho.

Definition segment_eqb (a b : segment) : bool :=
  match a, b with
  | Thap, Thap | TrungBinh, TrungBinh | Cao, Cao
  | KhongXacDinh, KhongXacDinh => true
  | _, _ => false
  end.

(** [groupby('segment')] sorts its keys: 'Cao' < 'Không xác định' <
    'Thấp' < 'Trung bình'. *)
Definition segment_key_order : list segment := [Cao; KhongXacDinh; Thap; TrungBinh].

Definition has_segment (k : segment) (r : row) : bool :=
  match r_segment r with Some s => segment_eqb s k | None => false end.

(** The summed columns of each mode: [revenue]/[quantity_sold] in
    'Bán hàng', [stock_revenue]/[stock_remaining] (renamed) in 'Tồn kho';
    [sum] skips NaN. *)
Definition mode_revenue (m : display_mode) (r : row) : Q :=
  match m with BanHang => r_revenue r | TonKho => r_stock_revenue r end.

Definition mode_quantity (m : display_mode) (r : row) : Q :=
  match m with
  | BanHang => default 0%Q (r_quantity_sold r)
  | TonKho => default 0%Q (r_stock_remaining r)
  end.

Record segment_stat := {
  s_segment : segment;
  s_revenue : Q;
  s_quantity_sold : Q;
  s_revenue_pct : Q;
  s_quantity_pct : Q
}.

Definition group_rows (k : segment) (df : list row) : list row :=
  filter (has_segment k) df.

(** [df.groupby('segment').agg({...: 'sum'}).reset_index()]. *)
Definition segment_groups (m : display_mode) (df : list row) : list (segment * Q * Q) :=
  map (fun k => (k, Qsum (map (mode_revenue m) (group_rows k df)),
                    Qsum (map (mode_quantity m) (group_rows k df))))
      (filter (fun k => existsb (has_segment k) df) segment_key_order).

(** [(col / total * 100) if total > 0 else 0]. *)
Definition pct (x total : Q) : Q :=
  if Qltb 0 total then (x / total * 100)%Q else 0%Q.

Definition calculate_segment_analysis (df : list row) (m : display_mode)
  : list segment_stat :=
  match df with
  | [] => []
  | _ =>
      let segment_stats := segment_groups m df in
      let total_revenue := Qsum (map (fun '(_, r, _) => r) segment_stats) in
      let total_quantity := Qsum (map (fun '(_, _, q) => q) segment_stats) in
      map (fun '(k, r, q) =>
             {| s_segment := k; s_revenue := r; s_quantity_sold := q;
                s_revenue_pct := pct r total_revenue;
                s_quantity_pct := pct q total_quantity |})
          segment_stats
  end.

(** One step of [idxmax]: a later element replaces the current one only
    when its value is strictly larger. *)
Definition idxmax_step {A} (f : A -> Q) (acc : option A) (x : A) : option A :=
  match acc with
  | None => Some x
  | Some b => if Qltb (f b) (f x) then Some x else Some b
  end.

(** [Series.idxmax()] followed by [.loc]: the first element holding the
    largest value. *)
Definition idxmax {A} (f : A -> Q) (l : list A) : option A :=
  fold_left (idxmax_step f) l None.

(** The "leading tier" notes under the two pie charts:
    [segment_analysis.loc[segment_analysis[col].idxmax()]], shown only when
    the column sums to more than 0. *)
Definition top_segment (f : segment_stat -> Q) (sa : list segment_stat)
  : option segment_stat :=
  if Qltb 0 (Qsum (map f sa)) then idxmax f sa else None.

(** The order of the tiers: [Thấp] < [Trung bình] < [Cao]. *)
Definition tier_rank (s : option segment) : Z :=
  match s with
  | Some Thap => 0
  | Some TrungBinh => 1
  | Some Cao => 2
  | Some KhongXacDinh | None => 3
  end.

(** ** The module-level flow of the dashboard *)

(** Sidebar selections: [None] stands for 'Tất cả'. *)
Record selection := {
  sel_category : option string;
  sel_segment : option segment;
  sel_product : option string
}.

(** From the loaded frame to the [filtered_df] the date filter receives:
    clustering, then the category, segment and product selections. *)
Definition dashboard_selected (df : list row) (sel : selection) : list row :=
  let df := apply_clustering_improved df in
  let filtered_df :=
    match sel_category sel with
    | None => df
    | Some c => filter (fun r => String.eqb (r_category r) c) df
    end in
  let filtered_df :=
    match sel_segment sel with
    | None => filtered_df
    | Some s => filter (has_segment s) filtered_df
    end in
  match sel_product sel with
  | None => filtered_df
  | Some n => filter (fun r => String.eqb (r_name r) n) filtered_df
  end.

(** The [filtered_df] handed to [calculate_segment_analysis]: the date
    filter, then [categorize_price_segment(filtered_df.copy())]. *)
Definition dashboard_filtered_df (df : list row) (sel : selection)
  (start_date end_date : date) : list row :=
  let filtered_df :=
    filter_by_date_range_optimized (dashboard_selected df sel) start_date end_date in
  categorize_price_segment filtered_df.

Definition dashboard_segment_analysis (df : list row) (sel : selection)
  (start_date end_date : date) (m : display_mode) : list segment_stat :=
  calculate_segment_analysis (dashboard_filtered_df df sel start_date end_date) m.

(** ** KPI metrics *)

(** [total_quantity] and [total_stock]: column sums of the date-filtered
    frame ([0] for an empty frame). *)
Definition kpi_total_quantity (df : list row) : Q :=
  Qsum (map (fun r => default 0%Q (r_quantity_sold r)) df).

Definition kpi_total_stock (df : list row) : Q :=
  Qsum (map (fun r => default 0%Q (r_stock_remaining r)) df).

Definition qmean (l : list Q) : Q :=
  (Qsum l / inject_Z (Z.of_nat (List.length l)))%Q.

(** The rows [avg_price] averages over: [quantity_sold > 0] in
    'Bán hàng', [stock_revenue > 0] in 'Tồn kho'. *)
Definition kpi_priced_rows (m : display_mode) (df : list row) : list row :=
  match m with
  | BanHang => filter (fun r => Qltb 0 (default 0%Q (r_quantity_sold r))) df
  | TonKho => filter (fun r => Qltb 0 (r_stock_revenue r)) df
  end.

(** [avg_price]: the mean price of those rows, [0] when there is none. *)
Definition kpi_avg_price (m : display_mode) (df : list row) : Q :=
  match df with
  | [] => 0%Q
  | _ =>
      match kpi_priced_rows m df with
      | [] => 0%Q
      | sel => qmean (map (fun r => inject_Z (r_price r)) sel)
      end
  end.

Definition idxmax_row (f : row -> Q) (df : list row) : option row := idxmax f df.

(** The column the fourth KPI card ranks by. *)
Definition kpi_value (m : display_mode) (r : row) : Q :=
  match m with
  | BanHang => default 0%Q (r_quantity_sold r)
  | TonKho => default 0%Q (r_stock_remaining r)
  end.

(** The fourth KPI card: the best-selling (or most stocked) product, or
    "N/A" when the frame is empty or the column sums to 0. *)
Definition kpi_top_product (m : display_mode) (df : list row) : string :=
  match df with
  | [] => "N/A"%string
  | _ =>
      if Qltb 0 (Qsum (map (kpi_value m) df)) then
        match idxmax_row (kpi_value m) df with
        | Some r => r_name r
        | None => "N/A"%string
        end
      else "N/A"%string
  end.

(** ** The daily chart *)

(** One element of [daily_data]. *)
Record daily_point := {
  dp_date : date;
  dp_quantity_sold : Q;
  dp_stock_remaining : Q;
  dp_name : string;
  dp_price : Z
}.

(** The loop over [filtered_df.iterrows()] and each row's
    [stock_history]: an entry that is not a dict ([entry.get] raises), has
    no date or an unparsable one, or a quantity [float] rejects is skipped
    by the [except]; a parsed date in the window gives one point. *)
Definition daily_points_of_row (start_date end_date : date) (r : row)
  : list daily_point :=
  flat_map (fun en =>
              match entry_date en with
              | Some d =>
                  if date_leb start_date d && date_leb d end_date then
                    match py_dec en, py_inc en with
                    | Some q, Some k =>
                        [{| dp_date := d; dp_quantity_sold := q;
                            dp_stock_remaining := k;
                            dp_name := r_name r; dp_price := r_price r |}]
                    | _, _ => []
                    end
                  else []
              | None => []
              end)
           (r_stock_history r).

(** [daily_df]: the points, restricted to the selected product. *)
Definition daily_df (df : list row) (sel : selection) (start_date end_date : date)
  : list daily_point :=
  let pts := flat_map (daily_points_of_row start_date end_date) df in
  match sel_product sel with
  | None => pts
  | Some n => filter (fun p => String.eqb (dp_name p) n) pts
  end.

Definition date_eq_dec (a b : date) : {a = b} + {a <> b}.
Proof. decide equality; apply Z.eq_dec. Defined.

Definition date_eqb (a b : date) : bool := if date_eq_dec a b then true else false.

Fixpoint insert_date (d : date) (l : list date) : list date :=
  match l with
  | [] => [d]
  | x :: t => if date_leb d x then d :: x :: t else x :: insert_date d t
  end.

Definition sort_dates (l : list date) : list date := fold_right insert_date [] l.

(** [daily_df.groupby('date')]: the distinct dates, sorted. *)
Definition daily_keys (pts : list daily_point) : list date :=
  sort_dates (nodup date_eq_dec (map dp_date pts)).

(** [daily_df.groupby('date').agg({'quantity_sold': 'sum', ...})]: the
    summed [quantity_sold] (resp. [stock_remaining]) per date. *)
Definition daily_agg_quantity (pts : list daily_point) : list (date * Q) :=
  map (fun d => (d, Qsum (map dp_quantity_sold
                              (filter (fun p => date_eqb (dp_date p) d) pts))))
      (daily_keys pts).

Definition daily_agg_stock (pts : list daily_point) : list (date * Q) :=
  map (fun d => (d, Qsum (map dp_stock_remaining
                              (filter (fun p => date_eqb (dp_date p) d) pts))))
      (daily_keys pts).

(** ** [format_number] *)

(** The value [format_number] receives: a Python (or numpy) [int] or
    [float]. *)
Inductive pynum := PyInt (z : Z) | PyFloat (x : Q).

(** [float(z)] of an [int]: [|z|] rounded half to even to 53 significant
    bits; [None] where Python raises [OverflowError] (the rounded value
    reaches [2^1024]). *)
Definition float_of_int (z : Z) : option Z :=
  let a := Z.abs z in
  let sh := Z.max 0 (Z.log2 a + 1 - 53) in
  let v := (round_half_even (inject_Z a / inject_Z (2 ^ sh)) * 2 ^ sh)%Z in
  if v <? 2 ^ 1024 then Some (Z.sgn z * v)%Z else None.

(** The sign and the integer magnitude the [.0f] presentation writes: an
    [int] is first converted by [float], then the exact binary value is
    rounded half to even; a negative value keeps its ['-'] even when it
    rounds to 0. *)
Definition format_value (num : pynum) : option (bool * Z) :=
  match num with
  | PyFloat x => Some (Qltb x 0, round_half_even (Qabs x))
  | PyInt z =>
      match float_of_int z with
      | Some v => Some (z <? 0, Z.abs v)
      | None => None
      end
  end.

Definition is_digit (c : ascii) : bool :=
  let n := nat_of_ascii c in (48 <=? n)%nat && (n <=? 57)%nat.

Definition digit_val (c : ascii) : Z := Z.of_nat (nat_of_ascii c) - 48.

(** [int()] of a string of ASCII digits. *)
Fixpoint digits_val (acc : Z) (s : string) : Z :=
  match s with
  | EmptyString => acc
  | String c r => digits_val (acc * 10 + digit_val c) r
  end.

(** The decimal digits of a natural number, least significant first;
    [fuel] bounds the number of digits. *)
Fixpoint digits_rev (fuel : nat) (n : Z) : list ascii :=
  match fuel with
  | O => []
  | S f =>
      let c := ascii_of_nat (Z.to_nat (n mod 10) + 48) in
      if n <? 10 then [c] else c :: digits_rev f (n / 10)
  end.

(** [str(n)] of a non-negative integer, least significant digit first. *)
Definition dec_digits_rev (n : Z) : list ascii :=
  digits_rev (S (Z.to_nat (Z.log2 (Z.max 1 n)))) n.

(** The [","] grouping of Python's format specification: a comma after
    every three digits counted from the right (on the reversed digits). *)
Fixpoint group3 (rd : list ascii) : list ascii :=
  match rd with
  | a :: b :: c :: ((_ :: _) as rest) => a :: b :: c :: ","%char :: group3 rest
  | _ => rd
  end.

Definition replace_comma_dot (l : list ascii) : list ascii :=
  map (fun c => if Ascii.eqb c ","%char then "."%char else c) l.

(** [f"{num:,.0f}".replace(",", ".")]; [None] where the formatting
    raises. *)
Definition format_number (num : pynum) : option string :=
  match format_value num with
  | Some (neg, a) =>
      let body := rev (group3 (dec_digits_rev a)) in
      Some (string_of_list_ascii
              (replace_comma_dot (if neg then "-"%char :: body else body)))
  | None => None
  end.

(** The number written by digits given least significant first. *)
Definition digits_value (rd : list ascii) : Z :=
  fold_right (fun c acc => acc * 10 + digit_val c) 0 rd.

(** Keeps a character other than the ['.'] separator. *)
Definition not_dot (c : ascii) : bool := negb (Ascii.eqb c "."%char).

(** Reading a KPI figure back: drop the ['.'] separators and read the
    integer, with its sign; [None] when a character is not a digit. *)
Definition read_back (s : string) : option Z :=
  let t := filter not_dot (list_ascii_of_string s) in
  match t with
  | c :: u =>
      if Ascii.eqb c "-"%char then
        if forallb is_digit u then Some (- digits_val 0 (string_of_list_ascii u)) else None
      else if forallb is_digit t then Some (digits_val 0 (string_of_list_ascii t)) else None
  | [] => Some 0
  end.

(** ** Predicates of the statements *)

(** A quantity on which [float] and the pipeline agree: a number, [null]
    or an absent key, not a value of another type. *)
Definition no_other_qty (v : option qvalue) : bool :=
  match v with Some (QOther _) => false | _ => true end.

Definition plain_entry (e : entry) : bool :=
  match e with
  | EDict m => no_other_qty (e_stock_decreased m) && no_other_qty (e_stock_increased m)
  | ENotDict => true
  end.

(** A quantity that is an integer, [null] or absent. *)
Definition integral_qty (v : option qvalue) : bool :=
  match v with
  | Some (QNum x) => (Qnum x mod Zpos (Qden x) =? 0)%Z
  | Some (QOther _) => false
  | _ => true
  end.

Definition integral_entry (e : entry) : bool :=
  match e with
  | EDict m => integral_qty (e_stock_decreased m) && integral_qty (e_stock_increased m)
  | ENotDict => true
  end.

(** A row whose window metrics are set and non-negative. *)
Definition nonneg_metrics (r : row) : Prop :=
  exists q k, r_quantity_sold r = Some q /\ r_stock_remaining r = Some k /\
              (0 <= q)%Q /\ (0 <= k)%Q.

(** ** Concrete inputs *)

Open Scope string_scope.

Definition entry_of (d : string) (dec inc : Z) : entry :=
  EDict {| e_date := Some (DStr (ustr d));
           e_stock_decreased := Some (QNum (inject_Z dec));
           e_stock_increased := Some (QNum (inject_Z inc)) |}.

Definition raw_of (id cat : string) (price : Z) (h : list entry) : raw_product :=
  {| p_id := id; p_name := Some id; p_category := Some cat;
     p_price := Some (inject_Z price);
     p_promotion := None; p_stock_history := Some h |}.

Definition rows_of (raws : list raw_product) : list row :=
  fst (fst (load_data_optimized raws)).

Definition day_0310 : date := mkdate 2025 3 10.
Definition day_0401 : date := mkdate 2025 4 1.

(** A product whose fetched history has 51 well-dated entries. *)
Definition raw_51_entries : raw_product :=
  raw_of "p51" "A" 1000 (repeat (entry_of "2025-03-10" 1 0) 51).

(** The spec's example of a malformed movement entry next to a valid one. *)
Definition bad_entry : entry := entry_of "not-a-date" 10 0.
Definition raw_with_bad_entry : raw_product :=
  raw_of "pb" "A" 1000 [bad_entry; entry_of "2025-03-10" 5 2].

(** An entry dated in the window whose [stock_decreased] is [null]. *)
Definition null_entry : entry :=
  EDict {| e_date := Some (DStr (ustr "2025-03-10"));
           e_stock_decreased := Some QNull; e_stock_increased := None |}.
Definition raw_with_null_entry : raw_product :=
  raw_of "pn" "A" 1000 [bad_entry; null_entry].

(** The date 2025-03-10 written with fullwidth digits. *)
Definition fullwidth_date : ustring :=
  app [65298; 65296; 65298; 65301]%Z (ustr "-03-10").
Definition raw_fullwidth : raw_product :=
  raw_of "pf" "A" 1000
    [EDict {| e_date := Some (DStr fullwidth_date);
              e_stock_decreased := Some (QNum 4%Q);
              e_stock_increased := Some (QNum 1%Q) |}].

(** Three products, two of them in category "A". *)
Definition three_products : list row :=
  rows_of [raw_of "p1" "A" 1000 []; raw_of "p2" "A" 2000 []; raw_of "p3" "B" 3000 []].

(** Two products of the same price. *)
Definition two_equal_prices : list row :=
  rows_of [raw_of "q1" "A" 1500 []; raw_of "q2" "B" 1500 []].

(** Two products with stock added in March 2025, priced 1000 and 3000. *)
Definition two_stocked_products : list row :=
  rows_of [raw_with_bad_entry; raw_of "pc" "A" 3000 [entry_of "2025-03-12" 1 4]].

Definition select_A : selection :=
  {| sel_category := Some "A"; sel_segment := None; sel_product := None |}.

Definition select_all : selection :=
  {| sel_category := None; sel_segment := None; sel_product := None |}.

(** Two movements of 0.6 units each, dated 2025-03-10. *)
Definition frac_entry : entry :=
  EDict {| e_date := Some (DStr (ustr "2025-03-10"));
           e_stock_decreased := Some (QNum (3 # 5)%Q);
           e_stock_increased := Some (QNum (3 # 5)%Q) |}.
Definition raw_fractional : raw_product :=
  raw_of "pq" "A" 1000 [frac_entry; frac_entry].

(** A price just below the [$match] bound, which [$round] takes to 1e9. *)
Definition raw_price_near_cap : raw_product :=
  {| p_id := "pm"; p_name := Some "pm"; p_category := Some "A";
     p_price := Some (9999999997 # 10)%Q; p_promotion := None;
     p_stock_history := Some [entry_of "2025-03-10" 1 1] |}.

Close Scope string_scope.

(** * Properties *)

(** ** Helper lemmas: numbers *)

Ltac qle_bool_cases :=
  repeat match goal with
         | H : Qle_bool _ _ = true |- _ => apply Qle_bool_iff in H
         | H : Qle_bool ?a ?b = false |- _ =>
             let H' := fresh in
             assert (H' : (b < a)%Q)
               by (apply Qnot_le_lt; let F := fresh in
                   intros F; apply Qle_bool_iff in F; congruence);
             clear H
         end.

Open Scope Q_scope.

Lemma qmax0_nonneg x : 0 <= qmax0 x.
Proof. unfold qmax0. destruct (Qle_bool x 0) eqn:E; qle_bool_cases; lra. Qed.

Lemma qmax0_id x : 0 <= x -> qmax0 x == x.
Proof. intros H. unfold qmax0. destruct (Qle_bool x 0) eqn:E; qle_bool_cases; lra. Qed.

Lemma qmax0_ge x : x <= qmax0 x.
Proof. unfold qmax0. destruct (Qle_bool x 0) eqn:E; qle_bool_cases; lra. Qed.

Lemma qmax0_compat x y : x == y -> qmax0 x == qmax0 y.
Proof.
  intros H. unfold qmax0.
  destruct (Qle_bool x 0) eqn:E1, (Qle_bool y 0) eqn:E2; qle_bool_cases; lra.
Qed.

Lemma Qltb_iff x y : Qltb x y = true <-> x < y.
Proof.
  unfold Qltb. rewrite negb_true_iff. split.
  - intros E. qle_bool_cases. assumption.
  - intros H. destruct (Qle_bool y x) eqn:E; [|reflexivity].
    apply Qle_bool_iff in E. lra.
Qed.

Lemma Qltb_false x y : Qltb x y = false <-> y <= x.
Proof.
  unfold Qltb. rewrite negb_false_iff. apply Qle_bool_iff.
Qed.

Lemma Qsum_nonneg (l : list Q) : Forall (fun x => 0 <= x) l -> 0 <= Qsum l.
Proof. induction 1; simpl; lra. Qed.

Lemma Qsum_map_nonneg {A} (f : A -> Q) (l : list A) :
  (forall x, 0 <= f x) -> 0 <= Qsum (map f l).
Proof.
  intros Hf. apply Qsum_nonneg. apply Forall_forall.
  intros x Hx. apply in_map_iff in Hx as (y & <- & _). apply Hf.
Qed.

Lemma Qsum_app l1 l2 : Qsum (l1 ++ l2) == Qsum l1 + Qsum l2.
Proof. induction l1 as [|x l IH]; simpl; [lra|]. rewrite IH. lra. Qed.

Lemma Qsum_map_ext {A} (f g : A -> Q) (l : list A) :
  (forall x, In x l -> f x == g x) -> Qsum (map f l) == Qsum (map g l).
Proof.
  induction l as [|x l IH]; intros H; simpl; [lra|].
  rewrite (H x (or_introl eq_refl)), IH by (intros y Hy; apply H; right; exact Hy).
  lra.
Qed.

Lemma Qsum_filter_mono {A} (f1 f2 : A -> bool) (g : A -> Q) (l : list A) :
  (forall x, 0 <= g x) -> (forall x, f1 x = true -> f2 x = true) ->
  Qsum (map g (filter f1 l)) <= Qsum (map g (filter f2 l)).
Proof.
  intros Hg Hf. induction l as [|x l IH]; simpl; [lra|].
  specialize (Hg x). specialize (Hf x).
  destruct (f1 x) eqn:E1, (f2 x) eqn:E2; simpl; try lra.
  all: pose proof (Hf eq_refl); discriminate.
Qed.

Lemma Qsum_filter_le {A} (f : A -> bool) (g : A -> Q) (l : list A) :
  (forall x, 0 <= g x) -> Qsum (map g (filter f l)) <= Qsum (map g l).
Proof.
  intros Hg. induction l as [|x l IH]; simpl; [lra|].
  pose proof (Hg x). destruct (f x); simpl; lra.
Qed.

Lemma Qsum_firstn_le {A} (n : nat) (g : A -> Q) (l : list A) :
  (forall x, 0 <= g x) -> Qsum (map g (firstn n l)) <= Qsum (map g l).
Proof.
  intros Hg. revert n. induction l as [|x l IH]; intros [|n]; simpl; try lra.
  - pose proof (Hg x). pose proof (Qsum_map_nonneg g l Hg). lra.
  - specialize (IH n). lra.
Qed.

Lemma round_half_even_compat x y : x == y -> round_half_even x = round_half_even y.
Proof.
  intros H. unfold round_half_even. rewrite (Qfloor_comp x y H).
  rewrite H. reflexivity.
Qed.

Lemma round_half_even_bounds x :
  x - (1 # 2) <= inject_Z (round_half_even x) <= x + (1 # 2).
Proof.
  unfold round_half_even.
  pose proof (Qfloor_le x). pose proof (Qlt_floor x).
  set (f := Qfloor x) in *.
  assert (H1 : inject_Z (f + 1) == inject_Z f + 1) by (rewrite inject_Z_plus; reflexivity).
  destruct (Qcompare_spec (x - inject_Z f) (1 # 2)) as [E|E|E].
  - destruct (Z.even f); lra.
  - lra.
  - lra.
Qed.

Lemma round_half_even_Z z : round_half_even (inject_Z z) = z.
Proof.
  unfold round_half_even. rewrite Qfloor_Z.
  destruct (Qcompare_spec (inject_Z z - inject_Z z) (1 # 2)) as [E|E|E];
    [lra|reflexivity|lra].
Qed.

Lemma round_half_even_nonneg x : 0 <= x -> (0 <= round_half_even x)%Z.
Proof.
  intros H. pose proof (round_half_even_bounds x) as [H1 _].
  destruct (Z.le_gt_cases 0 (round_half_even x)) as [|Hn]; [assumption|].
  exfalso. assert (Hq : inject_Z (round_half_even x) <= -1).
  { change (-1) with (inject_Z (-1)). rewrite <- Zle_Qle. lia. }
  lra.
Qed.

Close Scope Q_scope.

(** ** Helper lemmas: entries and sums *)

Open Scope Q_scope.

Lemma mongo_dec_nonneg e : 0 <= mongo_dec e.
Proof.
  destruct e as [m|]; simpl; [|lra].
  destruct (e_stock_decreased m) as [[x| |f]|]; simpl; try lra. apply qmax0_nonneg.
Qed.

Lemma mongo_inc_nonneg e : 0 <= mongo_inc e.
Proof.
  destruct e as [m|]; simpl; [|lra].
  destruct (e_stock_increased m) as [[x| |f]|]; simpl; try lra. apply qmax0_nonneg.
Qed.

Lemma py_dec_nonneg e q : py_dec e = Some q -> 0 <= q.
Proof.
  destruct e as [m|]; simpl; [|intros [= <-]; lra].
  destruct (py_float (e_stock_decreased m)); simpl; [|discriminate].
  intros [= <-]. apply qmax0_nonneg.
Qed.

Lemma py_inc_nonneg e q : py_inc e = Some q -> 0 <= q.
Proof.
  destruct e as [m|]; simpl; [|intros [= <-]; lra].
  destruct (py_float (e_stock_increased m)); simpl; [|discriminate].
  intros [= <-]. apply qmax0_nonneg.
Qed.

Lemma py_dec_mongo e q : plain_entry e = true -> py_dec e = Some q -> q = mongo_dec e.
Proof.
  destruct e as [m|]; simpl; [|intros _ [= <-]; reflexivity].
  destruct (e_stock_decreased m) as [[x| |f]|]; simpl; try discriminate;
    intros _ [= <-]; reflexivity.
Qed.

Lemma py_inc_mongo e q : plain_entry e = true -> py_inc e = Some q -> q = mongo_inc e.
Proof.
  destruct e as [m|]; simpl; [|intros _ [= <-]; reflexivity].
  destruct (e_stock_increased m) as [[x| |f]|]; simpl;
    rewrite ?andb_false_r; try discriminate; intros _ [= <-]; reflexivity.
Qed.

Lemma sum_opt_nonneg l s :
  sum_opt l = Some s -> (forall q, In (Some q) l -> 0 <= q) -> 0 <= s.
Proof.
  revert s. induction l as [|o l IH]; intros s; simpl.
  - intros [= <-] _. lra.
  - destruct o as [x|]; [|discriminate]. destruct (sum_opt l) as [t|]; [|discriminate].
    intros [= <-] H. specialize (IH t eq_refl).
    assert (0 <= x) by (apply H; left; reflexivity).
    assert (0 <= t) by (apply IH; intros q Hq; apply H; right; exact Hq). lra.
Qed.

Lemma sum_opt_map_nonneg {A} (f : A -> option Q) (l : list A) s :
  (forall x q, f x = Some q -> 0 <= q) -> sum_opt (map f l) = Some s -> 0 <= s.
Proof.
  intros Hf Hs. apply (sum_opt_nonneg _ _ Hs). intros q Hq.
  apply in_map_iff in Hq as (x & Hx & _). exact (Hf x q Hx).
Qed.

Lemma sum_opt_None l : sum_opt l = None <-> In None l.
Proof.
  induction l as [|o l IH]; simpl; [split; [discriminate|tauto]|].
  destruct o as [x|]; [|split; [auto|reflexivity]].
  destruct (sum_opt l) as [t|]; split.
  - discriminate.
  - intros [H|H]; [discriminate|]. apply IH in H. discriminate.
  - intros _. right. apply IH. reflexivity.
  - reflexivity.
Qed.

Lemma sum_opt_Some l s :
  sum_opt l = Some s -> exists l', l = map Some l' /\ s = Qsum l'.
Proof.
  revert s. induction l as [|o l IH]; intros s; simpl.
  - intros [= <-]. exists []. split; reflexivity.
  - destruct o as [x|]; [|discriminate]. destruct (sum_opt l) as [t|]; [|discriminate].
    intros [= <-]. destruct (IH t eq_refl) as (l' & -> & ->).
    exists (x :: l'). split; reflexivity.
Qed.

Lemma sum_opt_map_Some (l : list Q) : sum_opt (map Some l) = Some (Qsum l).
Proof. induction l as [|x l IH]; simpl; [reflexivity|]. rewrite IH. reflexivity. Qed.

Lemma sum_opt_py_dec l q :
  forallb plain_entry l = true -> sum_opt (map py_dec l) = Some q ->
  q = Qsum (map mongo_dec l).
Proof.
  revert q. induction l as [|e l IH]; intros q; simpl; [intros _ [= <-]; reflexivity|].
  intros Hp. apply andb_true_iff in Hp as [He Hl].
  destruct (py_dec e) as [x|] eqn:Ex; [|discriminate].
  destruct (sum_opt (map py_dec l)) as [t|]; [|discriminate].
  intros [= <-]. rewrite (py_dec_mongo e x He Ex), (IH t Hl eq_refl). reflexivity.
Qed.

Lemma sum_opt_py_inc l q :
  forallb plain_entry l = true -> sum_opt (map py_inc l) = Some q ->
  q = Qsum (map mongo_inc l).
Proof.
  revert q. induction l as [|e l IH]; intros q; simpl; [intros _ [= <-]; reflexivity|].
  intros Hp. apply andb_true_iff in Hp as [He Hl].
  destruct (py_inc e) as [x|] eqn:Ex; [|discriminate].
  destruct (sum_opt (map py_inc l)) as [t|]; [|discriminate].
  intros [= <-]. rewrite (py_inc_mongo e x He Ex), (IH t Hl eq_refl). reflexivity.
Qed.

(** On a sublist (by filtering) of a list whose sum is defined, the sum is
    defined too. *)
Lemma sum_opt_filter {A} (f : A -> option Q) (g : A -> bool) (l : list A) :
  sum_opt (map f l) <> None -> sum_opt (map f (filter g l)) <> None.
Proof.
  rewrite !sum_opt_None. intros H1 H2. apply H1.
  apply in_map_iff in H2 as (x & Hx & Hin). apply filter_In in Hin as [Hin _].
  apply in_map_iff. exists x. split; assumption.
Qed.

Close Scope Q_scope.

(** ** Helper lemmas: loading, the window, clustering *)

Lemma load_product_some p r :
  load_product p = Some r ->
  pipeline_match p = true /\
  r_price r = Z.max 1000 (round_half_even (default (inject_Z 1000) (p_price p))) /\
  r_total_sold r = round_half_even (qmax0 (pipeline_total_sold p)) /\
  r_total_stock_increased r = round_half_even (qmax0 (pipeline_total_stock_increased p)) /\
  r_revenue r = inject_Z (round_half_even
                  (inject_Z (r_price r) * qmax0 (pipeline_total_sold p))) /\
  r_stock_revenue r = inject_Z (round_half_even
                  (inject_Z (r_price r) * qmax0 (pipeline_total_stock_increased p))) /\
  r_stock_history r = firstn 50 (fetched_history p) /\
  r_id r = p_id p /\ r_segment r = None /\
  r_quantity_sold r = None /\ r_stock_remaining r = None.
Proof.
  unfold load_product. destruct (pipeline_match p); [|discriminate].
  intros H. injection H as <-. simpl. repeat split.
Qed.

Lemma pipeline_totals_nonneg p :
  (0 <= pipeline_total_sold p)%Q /\ (0 <= pipeline_total_stock_increased p)%Q.
Proof.
  split; apply Qsum_map_nonneg; [apply mongo_dec_nonneg|apply mongo_inc_nonneg].
Qed.

Lemma recalculate_row_some s e r r' :
  recalculate_row s e r = Some r' ->
  exists q k,
    sum_opt (map py_dec (filter_stock_history s e (r_stock_history r))) = Some q /\
    sum_opt (map py_inc (filter_stock_history s e (r_stock_history r))) = Some k /\
    r_stock_history r' = filter_stock_history s e (r_stock_history r) /\
    r_quantity_sold r' = Some q /\ r_stock_remaining r' = Some k /\
    r_revenue r' = (inject_Z (r_price r) * q)%Q /\
    r_stock_revenue r' = (inject_Z (r_price r) * k)%Q /\
    r_id r' = r_id r /\ r_name r' = r_name r /\ r_category r' = r_category r /\
    r_price r' = r_price r /\ r_promotion r' = r_promotion r /\
    r_total_sold r' = r_total_sold r /\
    r_total_stock_increased r' = r_total_stock_increased r /\
    r_segment r' = r_segment r.
Proof.
  unfold recalculate_row.
  destruct (sum_opt (map py_dec _)) as [q|]; [|discriminate].
  destruct (sum_opt (map py_inc _)) as [k|]; [|discriminate].
  intros [= <-]. exists q, k. repeat split.
Qed.

Lemma recalculate_row_none s e r :
  recalculate_row s e r = None <->
  exists en, In en (filter_stock_history s e (r_stock_history r)) /\
             (py_dec en = None \/ py_inc en = None).
Proof.
  unfold recalculate_row.
  set (h := filter_stock_history s e (r_stock_history r)).
  assert (Hd : sum_opt (map py_dec h) = None <-> exists en, In en h /\ py_dec en = None).
  { rewrite sum_opt_None, in_map_iff. split; intros (en & H1 & H2); eauto. }
  assert (Hi : sum_opt (map py_inc h) = None <-> exists en, In en h /\ py_inc en = None).
  { rewrite sum_opt_None, in_map_iff. split; intros (en & H1 & H2); eauto. }
  destruct (sum_opt (map py_dec h)) as [q|], (sum_opt (map py_inc h)) as [k|].
  - split; [discriminate|]. intros (en & Hen & [H|H]).
    + discriminate (proj2 Hd (ex_intro _ en (conj Hen H))).
    + discriminate (proj2 Hi (ex_intro _ en (conj Hen H))).
  - split; [intros _|reflexivity]. destruct (proj1 Hi eq_refl) as (en & H1 & H2). eauto.
  - split; [intros _|reflexivity]. destruct (proj1 Hd eq_refl) as (en & H1 & H2). eauto.
  - split; [intros _|reflexivity]. destruct (proj1 Hd eq_refl) as (en & H1 & H2). eauto.
Qed.

Lemma map_opt_Forall2 {A B} (f : A -> option B) l l' :
  map_opt f l = Some l' -> Forall2 (fun x y => f x = Some y) l l'.
Proof.
  revert l'. induction l as [|x l IH]; intros l'; simpl.
  - intros [= <-]. constructor.
  - destruct (f x) as [y|] eqn:E; [|discriminate].
    destruct (map_opt f l) as [t|]; simpl; [|discriminate].
    intros [= <-]. constructor; auto.
Qed.

Lemma map_opt_None {A B} (f : A -> option B) l :
  map_opt f l = None <-> exists x, In x l /\ f x = None.
Proof.
  induction l as [|x l IH]; simpl; [split; [discriminate|intros (? & [] & _)]|].
  destruct (f x) as [y|] eqn:E.
  - destruct (map_opt f l) as [t|]; simpl; split.
    + discriminate.
    + intros (z & [<-|Hz] & Hn); [congruence|].
      discriminate (proj2 IH (ex_intro _ z (conj Hz Hn))).
    + intros _. destruct (proj1 IH eq_refl) as (z & H1 & H2). eauto.
    + reflexivity.
  - split; [intros _; eauto|reflexivity].
Qed.

Lemma map_opt_Some_iff {A B} (f : A -> option B) l :
  map_opt f l <> None <-> forall x, In x l -> f x <> None.
Proof.
  rewrite map_opt_None. split.
  - intros H x Hx Hn. apply H. eauto.
  - intros H (x & Hx & Hn). exact (H x Hx Hn).
Qed.

Lemma filter_by_date_cases df s e :
  map_opt (recalculate_row s e) df = Some (filter_by_date_range_optimized df s e) \/
  (map_opt (recalculate_row s e) df = None /\ filter_by_date_range_optimized df s e = df).
Proof.
  destruct df as [|r df]; [left; reflexivity|].
  unfold filter_by_date_range_optimized.
  destruct (map_opt (recalculate_row s e) (r :: df)); [left|right]; auto.
Qed.

Lemma window_recomputes_filter df s e :
  window_recomputes df s e = true ->
  map_opt (recalculate_row s e) df = Some (filter_by_date_range_optimized df s e).
Proof.
  unfold window_recomputes. intros H.
  destruct (filter_by_date_cases df s e) as [E|[E _]]; [exact E|]. rewrite E in H. discriminate.
Qed.

Lemma filter_by_date_Forall2 (P : row -> row -> Prop) df s e :
  (forall r, P r r) -> (forall r r', recalculate_row s e r = Some r' -> P r r') ->
  Forall2 P df (filter_by_date_range_optimized df s e).
Proof.
  intros Hrefl Hrec. destruct (filter_by_date_cases df s e) as [E|[_ ->]].
  - apply map_opt_Forall2 in E. eapply Forall2_impl; [|exact E]. exact Hrec.
  - induction df as [|r df IH]; constructor; auto.
Qed.

Lemma Forall2_map_eq {B} (g : row -> B) df df' :
  Forall2 (fun r r' => g r' = g r) df df' -> map g df' = map g df.
Proof. induction 1; simpl; congruence. Qed.

Lemma Forall2_nth_error {A B} (P : A -> B -> Prop) l l' i x :
  Forall2 P l l' -> nth_error l i = Some x -> exists y, nth_error l' i = Some y /\ P x y.
Proof.
  intros H. revert i. induction H as [|a b l l' Hab H IH]; intros [|i] Hi; simpl in *;
    try discriminate.
  - injection Hi as <-. eauto.
  - apply IH. exact Hi.
Qed.

Lemma Forall2_In_r {A B} (P : A -> B -> Prop) l l' y :
  Forall2 P l l' -> In y l' -> exists x, In x l /\ P x y.
Proof.
  induction 1 as [|a b l l' Hab H IH]; simpl; [tauto|].
  intros [<-|Hy]; [eauto|]. destruct (IH Hy) as (x & Hx & Hp). eauto.
Qed.

Lemma filter_all_false {A} (f : A -> bool) (l : list A) :
  (forall x, In x l -> f x = false) -> filter f l = [].
Proof.
  induction l as [|x l IH]; intros H; simpl; [reflexivity|].
  rewrite H by (left; reflexivity). apply IH. intros y Hy. apply H. right. exact Hy.
Qed.

Lemma filter_all_true {A} (f : A -> bool) (l : list A) :
  (forall x, In x l -> f x = true) -> filter f l = l.
Proof.
  induction l as [|x l IH]; intros H; simpl; [reflexivity|].
  rewrite H by (left; reflexivity). f_equal. apply IH. intros y Hy. apply H. right. exact Hy.
Qed.

Lemma nth_error_combine_l {A B} (l1 : list A) (l2 : list B) i x :
  List.length l2 = List.length l1 -> nth_error l1 i = Some x ->
  exists y, nth_error (combine l1 l2) i = Some (x, y).
Proof.
  revert l2 i. induction l1 as [|a l1 IH]; intros [|b l2] [|i] Hl H;
    simpl in *; try discriminate.
  - injection H as <-. eauto.
  - apply IH; auto.
Qed.

Lemma map_segment_assign df col :
  List.length col = List.length df ->
  map r_segment (assign_segments df col) = map Some col.
Proof.
  unfold assign_segments. revert col.
  induction df as [|r df IH]; intros [|s col] Hl; simpl in *; try discriminate; auto.
  f_equal. apply IH. lia.
Qed.

Lemma clustering_segments_length df :
  List.length (clustering_segments df) = List.length df.
Proof.
  unfold clustering_segments, price_column.
  destruct (_ && _); rewrite !length_map; reflexivity.
Qed.

Lemma apply_clustering_length df :
  List.length (apply_clustering_improved df) = List.length df.
Proof.
  destruct df as [|r0 df0]; [reflexivity|].
  unfold apply_clustering_improved, assign_segments.
  rewrite length_map, length_combine, clustering_segments_length, length_map. lia.
Qed.

Lemma apply_clustering_nth df i r :
  nth_error df i = Some r ->
  exists s, nth_error (apply_clustering_improved df) i
            = Some (set_segment (Some s) (set_lifetime_metrics r)).
Proof.
  intros Hi. destruct df as [|r0 df0]; [destruct i; discriminate|].
  set (df := r0 :: df0) in *.
  assert (Hm : nth_error (map set_lifetime_metrics df) i = Some (set_lifetime_metrics r))
    by (rewrite nth_error_map, Hi; reflexivity).
  destruct (nth_error_combine_l _ (clustering_segments (map set_lifetime_metrics df)) _ _
              (clustering_segments_length _) Hm) as [s Hs].
  exists s. change (apply_clustering_improved df) with
    (assign_segments (map set_lifetime_metrics df)
       (clustering_segments (map set_lifetime_metrics df))).
  unfold assign_segments. rewrite nth_error_map, Hs. reflexivity.
Qed.

Lemma in_apply_clustering df r' :
  In r' (apply_clustering_improved df) ->
  exists r s, In r df /\ r' = set_segment (Some s) (set_lifetime_metrics r).
Proof.
  intros H. apply In_nth_error in H as [i Hi].
  assert (Hlt : (i < List.length df)%nat).
  { rewrite <- apply_clustering_length. apply nth_error_Some. congruence. }
  destruct (nth_error df i) as [r|] eqn:E; [|apply nth_error_None in E; lia].
  destruct (apply_clustering_nth df i r E) as [s Hs]. rewrite Hs in Hi.
  injection Hi as <-. exists r, s. split; [eapply nth_error_In; exact E|reflexivity].
Qed.

Lemma in_rows_of raws r : In r (rows_of raws) -> exists p, In p raws /\ load_product p = Some r.
Proof.
  unfold rows_of, load_data_optimized.
  assert (H : In r (flat_map (fun p => match load_product p with
                                       | Some r => [r] | None => [] end) raws) ->
              exists p, In p raws /\ load_product p = Some r).
  { rewrite in_flat_map. intros (p & Hp & Hr).
    destruct (load_product p) as [r0|] eqn:E; [|destruct Hr].
    destruct Hr as [<-|[]]. eauto. }
  destruct (flat_map product_dates _); exact H.
Qed.

Lemma categorize_price_column_length col :
  List.length (categorize_price_column col) = List.length col.
Proof.
  unfold categorize_price_column.
  destruct (forallb is_none col); [apply length_map|].
  destruct (quantile (1 # 4) col), (quantile (3 # 4) col);
    try apply length_map.
  destruct (Qeq_bool _ _); [destruct (Qeq_bool _ _)|]; apply length_map.
Qed.

(** ** Percentiles are monotone *)

Lemma insertQ_In x l z : In z (insertQ x l) <-> x = z \/ In z l.
Proof.
  induction l as [|y t IH]; simpl.
  - tauto.
  - destruct (Qle_bool x y); simpl; [tauto|]. rewrite IH. tauto.
Qed.

Lemma insertQ_sorted x l :
  StronglySorted Qle l -> StronglySorted Qle (insertQ x l).
Proof.
  induction 1 as [|y t Hs IH Hf]; simpl.
  - constructor; constructor.
  - destruct (Qle_bool x y) eqn:E.
    + apply Qle_bool_iff in E. constructor; [constructor; assumption|].
      constructor; [exact E|]. eapply Forall_impl; [|exact Hf].
      intros z Hz. eapply Qle_trans; eassumption.
    + constructor; [exact IH|]. apply Forall_forall. intros z Hz.
      apply insertQ_In in Hz as [<-|Hz].
      * assert (Hn : ~ (x <= y)%Q) by (intros H; apply Qle_bool_iff in H; congruence).
        apply Qnot_le_lt in Hn. apply Qlt_le_weak. exact Hn.
      * rewrite Forall_forall in Hf. apply Hf. exact Hz.
Qed.

Lemma sortQ_sorted l : StronglySorted Qle (sortQ l).
Proof.
  induction l as [|x l IH]; simpl; [constructor|]. apply insertQ_sorted. exact IH.
Qed.

Lemma insertQ_not_nil x l : insertQ x l <> [].
Proof. destruct l; simpl; [discriminate|]. destruct (Qle_bool x q); discriminate. Qed.

Lemma sorted_nth_le (v : list Q) (d : Q) i j :
  StronglySorted Qle v -> (i <= j)%nat -> (j < List.length v)%nat ->
  (nth i v d <= nth j v d)%Q.
Proof.
  intros Hs. revert i j. induction Hs as [|x t Hs IH Hf]; intros i j Hij Hj;
    simpl in *; [lia|].
  destruct i as [|i], j as [|j].
  - apply Qle_refl.
  - rewrite Forall_forall in Hf. apply Hf. apply nth_In. lia.
  - lia.
  - apply IH; lia.
Qed.

(** The value after an index is at least the one at it, also at the end
    where [nth] returns its default. *)
Lemma sorted_nth_next (v : list Q) k :
  StronglySorted Qle v -> (k < List.length v)%nat ->
  (nth k v 0 <= nth (S k) v (nth k v 0))%Q.
Proof.
  intros Hs Hk. destruct (Nat.lt_ge_cases (S k) (List.length v)) as [H|H].
  - rewrite (nth_indep v (nth k v 0%Q) 0%Q H). apply sorted_nth_le; auto.
  - rewrite (nth_overflow v (nth k v 0%Q) H). apply Qle_refl.
Qed.

Lemma Qfloor_bounds (pos : Q) :
  (inject_Z (Qfloor pos) <= pos)%Q /\ (pos < inject_Z (Qfloor pos + 1))%Q.
Proof. split; [apply Qfloor_le|apply Qlt_floor]. Qed.

Lemma lerp_at_mono (v : list Q) (pos1 pos2 : Q) :
  StronglySorted Qle v -> v <> [] ->
  (0 <= pos1)%Q -> (pos1 <= pos2)%Q ->
  (pos2 <= inject_Z (Z.of_nat (List.length v) - 1))%Q ->
  (lerp_at v pos1 <= lerp_at v pos2)%Q.
Proof.
  intros Hs Hne H0 H12 H2n.
  assert (Hn : (1 <= List.length v)%nat) by (destruct v; [congruence|simpl; lia]).
  unfold lerp_at.
  set (lo1 := Qfloor pos1). set (lo2 := Qfloor pos2).
  assert (Hlo1 : (0 <= lo1)%Z).
  { replace 0%Z with (Qfloor 0%Q) by reflexivity. apply Qfloor_resp_le. exact H0. }
  assert (Hlo12 : (lo1 <= lo2)%Z) by (apply Qfloor_resp_le; exact H12).
  assert (Hlo2 : (lo2 <= Z.of_nat (List.length v) - 1)%Z).
  { rewrite <- (Qfloor_Z (Z.of_nat (List.length v) - 1)). apply Qfloor_resp_le. exact H2n. }
  destruct (Qfloor_bounds pos1) as [F1 G1]. destruct (Qfloor_bounds pos2) as [F2 G2].
  fold lo1 in F1, G1. fold lo2 in F2, G2.
  rewrite inject_Z_plus in G1, G2. change (inject_Z 1) with 1%Q in G1, G2.
  set (k1 := Z.to_nat lo1). set (k2 := Z.to_nat lo2).
  assert (Hk1 : (k1 < List.length v)%nat) by (subst k1; lia).
  assert (Hk2 : (k2 < List.length v)%nat) by (subst k2; lia).
  set (a1 := nth k1 v 0%Q). set (a2 := nth k2 v 0%Q).
  set (b1 := nth (S k1) v a1). set (b2 := nth (S k2) v a2).
  assert (Hab1 : (a1 <= b1)%Q) by (apply sorted_nth_next; assumption).
  assert (Hab2 : (a2 <= b2)%Q) by (apply sorted_nth_next; assumption).
  set (f1 := (pos1 - inject_Z lo1)%Q). set (f2 := (pos2 - inject_Z lo2)%Q).
  assert (Hf1 : (0 <= f1 <= 1)%Q) by (subst f1; split; lra).
  assert (Hf2 : (0 <= f2 <= 1)%Q) by (subst f2; split; lra).
  destruct (Z.eq_dec lo1 lo2) as [Heq|Hlt].
  - assert (Hk : k1 = k2) by (subst k1 k2; rewrite Heq; reflexivity).
    assert (Ha : a1 = a2) by (subst a1 a2; rewrite Hk; reflexivity).
    assert (Hb : b1 = b2) by (subst b1 b2; rewrite Hk, Ha; reflexivity).
    assert (Hff : (f1 <= f2)%Q) by (subst f1 f2; rewrite Heq; lra).
    rewrite Ha, Hb. rewrite Ha, Hb in Hab1.
    assert (Hm : (f1 * (b2 - a2) <= f2 * (b2 - a2))%Q).
    { apply Qmult_le_compat_r; [exact Hff|lra]. }
    lra.
  - assert (HSk : (S k1 <= k2)%nat) by (subst k1 k2; lia).
    assert (Hb1a2 : (b1 <= a2)%Q).
    { subst b1 a2. rewrite (nth_indep v a1 0%Q) by lia.
      apply sorted_nth_le; assumption. }
    assert (Hm1 : (f1 * (b1 - a1) <= 1 * (b1 - a1))%Q).
    { apply Qmult_le_compat_r; [lra|lra]. }
    assert (Hm2 : (0 * (b2 - a2) <= f2 * (b2 - a2))%Q).
    { apply Qmult_le_compat_r; [lra|lra]. }
    lra.
Qed.

Lemma quantile_mono (q1 q2 : Q) (col : list (option Q)) (x1 x2 : Q) :
  (0 <= q1)%Q -> (q1 <= q2)%Q -> (q2 <= 1)%Q ->
  quantile q1 col = Some x1 -> quantile q2 col = Some x2 -> (x1 <= x2)%Q.
Proof.
  unfold quantile. pose proof (sortQ_sorted (somes col)) as Hs.
  destruct (sortQ (somes col)) as [|y t] eqn:E; [discriminate|].
  intros H0 H12 H21 E1 E2. injection E1 as <-. injection E2 as <-.
  set (m := inject_Z (Z.of_nat (List.length (y :: t)) - 1)).
  assert (Hm : (0 <= m)%Q).
  { subst m. replace 0%Q with (inject_Z 0) by reflexivity.
    rewrite <- Zle_Qle. rewrite length_cons, Nat2Z.inj_succ. lia. }
  apply lerp_at_mono; [exact Hs|discriminate| | |].
  - apply Qmult_le_0_compat; assumption.
  - apply Qmult_le_compat_r; assumption.
  - change (q2 * m <= m)%Q. rewrite <- (Qmult_1_l m) at 2.
    apply Qmult_le_compat_r; assumption.
Qed.

(** ** The segmentation classifier *)

Lemma in_combine_map {A B} (f : A -> B) (l : list A) a b :
  In (a, b) (combine l (map f l)) -> b = f a.
Proof.
  induction l as [|x l IH]; simpl; [contradiction|].
  intros [H|H]; [injection H as <- <-; reflexivity|auto].
Qed.

Lemma somes_not_nil col : forallb is_none col = false -> somes col <> [].
Proof.
  induction col as [|[x|] col IH]; simpl; intros H; [discriminate|discriminate|auto].
Qed.

Lemma quantile_defined q col :
  forallb is_none col = false -> exists x, quantile q col = Some x.
Proof.
  intros H. apply somes_not_nil in H. unfold quantile.
  destruct (somes col) as [|y t]; [congruence|]. simpl.
  destruct (insertQ y (sortQ t)) eqn:E; [apply insertQ_not_nil in E; contradiction|].
  eexists. reflexivity.
Qed.

Lemma quartiles_ordered col p25 p75 :
  quantile (1 # 4) col = Some p25 -> quantile (3 # 4) col = Some p75 -> (p25 <= p75)%Q.
Proof.
  intros H1 H3. eapply quantile_mono; [| | |exact H1|exact H3];
    unfold Qle; simpl; lia.
Qed.


(** ** Helper lemmas: recomputed frames, integer quantities, selections *)

Lemma filter_by_date_recomputed df s e :
  (forall r, In r df -> recalculate_row s e r <> None) ->
  forall r', In r' (filter_by_date_range_optimized df s e) ->
  exists r, In r df /\ recalculate_row s e r = Some r'.
Proof.
  intros Hall r' Hr'.
  destruct (filter_by_date_cases df s e) as [E|[E _]].
  - apply map_opt_Forall2 in E. destruct (Forall2_In_r _ _ _ _ E Hr') as (r & Hr & Hrec).
    eauto.
  - apply map_opt_None in E as (r & Hr & Hn). exfalso. exact (Hall r Hr Hn).
Qed.

Lemma integral_qty_Z v :
  integral_qty v = true -> exists z, (mongo_qty v == inject_Z z)%Q.
Proof.
  destruct v as [[x| |f]|]; simpl; try discriminate; try (exists 0%Z; reflexivity).
  intros H. apply Z.eqb_eq in H. unfold qmax0.
  destruct (Qle_bool x 0); [exists 0%Z; reflexivity|].
  exists (Qnum x / Zpos (Qden x))%Z. destruct x as [n d]. simpl in *.
  unfold Qeq. simpl. rewrite Z.mul_1_r.
  pose proof (Z.div_mod n (Zpos d) ltac:(lia)) as Hd. rewrite H, Z.add_0_r in Hd. lia.
Qed.

Lemma integral_entry_Z e :
  integral_entry e = true ->
  (exists z, (mongo_dec e == inject_Z z)%Q) /\ (exists z, (mongo_inc e == inject_Z z)%Q).
Proof.
  destruct e as [m|]; simpl; [|split; exists 0%Z; reflexivity].
  intros H. apply andb_true_iff in H as [H1 H2].
  split; apply integral_qty_Z; assumption.
Qed.

Lemma integral_entry_plain e : integral_entry e = true -> plain_entry e = true.
Proof.
  destruct e as [m|]; simpl; [|reflexivity].
  destruct (e_stock_decreased m) as [[x| |f]|], (e_stock_increased m) as [[y| |g]|];
    simpl; rewrite ?andb_false_r; auto.
Qed.

Lemma Qsum_integral {A} (g : A -> Q) (l : list A) :
  (forall x, In x l -> exists z, (g x == inject_Z z)%Q) ->
  exists z, (Qsum (map g l) == inject_Z z)%Q.
Proof.
  induction l as [|x l IH]; intros H; simpl; [exists 0%Z; reflexivity|].
  destruct (H x (or_introl eq_refl)) as [z1 H1].
  destruct IH as [z2 H2]; [intros y Hy; apply H; right; exact Hy|].
  exists (z1 + z2)%Z. rewrite H1, H2, inject_Z_plus. reflexivity.
Qed.

(** On an integer total, [round(_, 0)] of the pipeline's sum and of the
    price times that sum change nothing. *)
Lemma round_integral_total (T : Q) (price : Z) :
  (0 <= T)%Q -> (exists z, (T == inject_Z z)%Q) ->
  (inject_Z (round_half_even (qmax0 T)) == T)%Q /\
  (inject_Z (round_half_even (inject_Z price * qmax0 T)) == inject_Z price * T)%Q.
Proof.
  intros Hn [z Hz]. pose proof (qmax0_id T Hn) as Hm.
  split.
  - rewrite (round_half_even_compat _ (inject_Z z)) by (rewrite Hm; exact Hz).
    rewrite round_half_even_Z. rewrite Hz. reflexivity.
  - rewrite (round_half_even_compat _ (inject_Z (price * z))).
    + rewrite round_half_even_Z, inject_Z_mult, Hz. reflexivity.
    + rewrite Hm, Hz, inject_Z_mult. reflexivity.
Qed.

Lemma in_dashboard_selected df sel r :
  In r (dashboard_selected df sel) ->
  In r (apply_clustering_improved df) /\
  (forall c, sel_category sel = Some c -> r_category r = c) /\
  (forall k, sel_segment sel = Some k -> r_segment r = Some k) /\
  (forall n, sel_product sel = Some n -> r_name r = n).
Proof.
  unfold dashboard_selected.
  destruct (sel_category sel) as [c|], (sel_segment sel) as [k|], (sel_product sel) as [n|];
    intros H; repeat (apply filter_In in H as [H ?]);
    repeat match goal with
           | Hb : String.eqb _ _ = true |- _ => apply String.eqb_eq in Hb
           | Hb : has_segment _ _ = true |- _ =>
               unfold has_segment in Hb; destruct (r_segment r) as [[]|];
               [destruct k| destruct k| destruct k| destruct k|]; try discriminate Hb
           end;
    repeat split; try assumption; intros ? [= <-]; auto.
Qed.

Lemma in_assign_segments df col r :
  In r (assign_segments df col) ->
  exists r0 s, In (r0, s) (combine df col) /\ r = set_segment (Some s) r0.
Proof.
  unfold assign_segments. intros H. apply in_map_iff in H as ([r0 s] & <- & Hin).
  eauto.
Qed.

Lemma segment_filter_by_date df s e :
  map r_segment (filter_by_date_range_optimized df s e) = map r_segment df.
Proof.
  apply Forall2_map_eq, filter_by_date_Forall2; [reflexivity|].
  intros r r' H. apply recalculate_row_some in H.
  destruct H as (q & k & _ & _ & _ & _ & _ & _ & _ & _ & _ & _ & _ & _ & _ & _ & Hs).
  exact Hs.
Qed.

Lemma price_column_filter_by_date df s e :
  price_column (filter_by_date_range_optimized df s e) = price_column df.
Proof.
  unfold price_column.
  apply (Forall2_map_eq (fun r => Some (inject_Z (r_price r)))), filter_by_date_Forall2;
    [reflexivity|].
  intros r r' H. apply recalculate_row_some in H.
  destruct H as (q & k & _ & _ & _ & _ & _ & _ & _ & _ & _ & _ & Hp & _).
  simpl. rewrite Hp. reflexivity.
Qed.

Lemma filter_by_date_length df s e :
  List.length (filter_by_date_range_optimized df s e) = List.length df.
Proof.
  symmetry. eapply Forall2_length, (filter_by_date_Forall2 (fun _ _ => True)); auto.
Qed.

Ltac classifier_branch Hnn E25 E75 :=
  unfold categorize_price_column; rewrite Hnn, E25, E75.

(** ** Claims *)

(** C9: the stored movement list of a loaded product is exactly the first
    50 entries of the record's history (the 100-entry [$slice] of the
    pipeline followed by the Python [[:50]]), so it has at most 50
    entries. *)
Theorem stored_history_first_50 (p : raw_product) (r : row) :
  load_product p = Some r ->
  r_stock_history r = firstn 50 (default [] (p_stock_history p)) /\
  r_stock_history r = firstn 50 (fetched_history p) /\
  (List.length (r_stock_history r) <= 50)%nat.
Proof.
  intros H. apply load_product_some in H as (_ & _ & _ & _ & _ & _ & Hh & _).
  assert (H50 : firstn 50 (fetched_history p) = firstn 50 (default [] (p_stock_history p))).
  { unfold fetched_history. rewrite firstn_firstn. reflexivity. }
  rewrite Hh, H50. split; [reflexivity|]. split; [reflexivity|].
  rewrite length_firstn. lia.
Qed.

Lemma stored_history_first_50_witness :
  load_product raw_51_entries <> None /\
  (forall r, load_product raw_51_entries = Some r ->
             List.length (r_stock_history r) = 50%nat).
Proof.
  split; [vm_compute; discriminate|].
  intros r Hr.
  destruct (stored_history_first_50 raw_51_entries r Hr) as (H1 & _ & _).
  rewrite H1. reflexivity.
Defined.

(** C10: [apply_clustering_improved] returns an empty frame unchanged and
    otherwise a copy of the same length whose rows have
    [quantity_sold = total_sold] and
    [stock_remaining = total_stock_increased]. *)
Theorem clustering_copies_lifetime_totals (df : list row) :
  (df = [] -> apply_clustering_improved df = df) /\
  List.length (apply_clustering_improved df) = List.length df /\
  (forall i r, nth_error df i = Some r ->
     exists r', nth_error (apply_clustering_improved df) i = Some r' /\
                r_quantity_sold r' = Some (inject_Z (r_total_sold r)) /\
                r_stock_remaining r' = Some (inject_Z (r_total_stock_increased r)) /\
                r_price r' = r_price r /\
                r_stock_history r' = r_stock_history r).
Proof.
  split; [intros ->; reflexivity|]. split; [apply apply_clustering_length|].
  intros i r Hi. destruct (apply_clustering_nth df i r Hi) as [s Hs].
  eexists. split; [exact Hs|]. repeat split.
Qed.

(** C7: every entry contributes [max(0, value)], so the lifetime totals
    of a loaded product and the totals a window recomputation produces are
    non-negative, and the empty list sums to 0; the date filter keeps the
    metrics of a frame non-negative, and the frame the dashboard shows
    has non-negative [quantity_sold] and [stock_remaining]. *)
Theorem totals_nonnegative :
  (forall e, (0 <= mongo_dec e)%Q /\ (0 <= mongo_inc e)%Q /\
             (forall q, py_dec e = Some q -> (0 <= q)%Q) /\
             (forall q, py_inc e = Some q -> (0 <= q)%Q)) /\
  Qsum (map mongo_dec []) = 0%Q /\ sum_opt (map py_dec []) = Some 0%Q /\
  (forall p r, load_product p = Some r ->
     0 <= r_total_sold r /\ 0 <= r_total_stock_increased r) /\
  (forall s e r r', recalculate_row s e r = Some r' -> nonneg_metrics r') /\
  (forall df s e, Forall nonneg_metrics df ->
     Forall nonneg_metrics (filter_by_date_range_optimized df s e)) /\
  (forall raws sel s e,
     Forall nonneg_metrics
       (filter_by_date_range_optimized (dashboard_selected (rows_of raws) sel) s e)).
Proof.
  assert (Hload : forall p r, load_product p = Some r ->
            0 <= r_total_sold r /\ 0 <= r_total_stock_increased r).
  { intros p r H. apply load_product_some in H as (_ & _ & -> & -> & _).
    split; apply round_half_even_nonneg, qmax0_nonneg. }
  assert (Hrec : forall s e r r', recalculate_row s e r = Some r' -> nonneg_metrics r').
  { intros s e r r' H. apply recalculate_row_some in H
      as (q & k & Hq & Hk & _ & Hq' & Hk' & _).
    exists q, k. repeat split; try assumption.
    - exact (sum_opt_map_nonneg _ _ _ py_dec_nonneg Hq).
    - exact (sum_opt_map_nonneg _ _ _ py_inc_nonneg Hk). }
  assert (Hpres : forall df s e, Forall nonneg_metrics df ->
            Forall nonneg_metrics (filter_by_date_range_optimized df s e)).
  { intros df s e Hdf.
    pose proof (filter_by_date_Forall2 (fun r r' => r' = r \/ recalculate_row s e r = Some r')
                  df s e (fun r => or_introl eq_refl) (fun r r' H => or_intror H)) as HF.
    apply Forall_forall. intros r' Hr'.
    destruct (Forall2_In_r _ _ _ _ HF Hr') as (r & Hr & [->|H]).
    - rewrite Forall_forall in Hdf. auto.
    - exact (Hrec s e r r' H). }
  split.
  { intros e. split; [apply mongo_dec_nonneg|]. split; [apply mongo_inc_nonneg|].
    split; [apply py_dec_nonneg|apply py_inc_nonneg]. }
  split; [reflexivity|]. split; [reflexivity|].
  split; [exact Hload|]. split; [exact Hrec|]. split; [exact Hpres|].
  intros raws sel s e. apply Hpres. apply Forall_forall. intros r Hr.
  apply in_dashboard_selected in Hr as [Hr _].
  apply in_apply_clustering in Hr as (r0 & sg & Hr0 & ->).
  apply in_rows_of in Hr0 as (p & _ & Hp).
  destruct (Hload p r0 Hp) as [H1 H2].
  exists (inject_Z (r_total_sold r0)), (inject_Z (r_total_stock_increased r0)).
  simpl. repeat split; change 0%Q with (inject_Z 0); rewrite <- Zle_Qle; assumption.
Qed.

(** C8: with [start > end], or with a window containing no parsed date
    of the products' histories, the date filter recomputes every row (no
    quantity is converted, so nothing raises) with an empty movement list
    and zero [quantity_sold], [stock_remaining], [revenue] and
    [stock_revenue]. *)
Theorem empty_window_zero_metrics (df : list row) (start_date end_date : date) :
  (date_key end_date < date_key start_date \/
   (forall r en d, In r df -> In en (r_stock_history r) -> entry_date en = Some d ->
      date_key d < date_key start_date \/ date_key end_date < date_key d)) ->
  Forall (fun r => r_stock_history r = [] /\ r_quantity_sold r = Some 0%Q /\
                   r_stock_remaining r = Some 0%Q /\ (r_revenue r == 0)%Q /\
                   (r_stock_revenue r == 0)%Q)
         (filter_by_date_range_optimized df start_date end_date).
Proof.
  intros Hw.
  assert (Hnil : forall r, In r df ->
            filter_stock_history start_date end_date (r_stock_history r) = []).
  { intros r Hr. unfold filter_stock_history. apply filter_all_false.
    intros en Hen. unfold in_window.
    destruct (entry_date en) as [d|] eqn:Hd; [|reflexivity].
    unfold date_leb. apply andb_false_iff.
    destruct Hw as [Hlt | Hdis].
    - destruct (date_key start_date <=? date_key d) eqn:E1; [right|left; reflexivity].
      apply Z.leb_le in E1. apply Z.leb_gt. lia.
    - destruct (Hdis r en d Hr Hen Hd); [left|right]; apply Z.leb_gt; lia. }
  assert (Hsome : forall r, In r df -> recalculate_row start_date end_date r <> None).
  { intros r Hr. unfold recalculate_row. rewrite (Hnil r Hr). discriminate. }
  apply Forall_forall. intros r' Hr'.
  destruct (filter_by_date_recomputed df start_date end_date Hsome r' Hr') as (r & Hr & Hrec).
  apply recalculate_row_some in Hrec as (q & k & Hq & Hk & Hh & Hq' & Hk' & Hrv & Hsv & _).
  rewrite (Hnil r Hr) in Hq, Hk, Hh. simpl in Hq, Hk.
  injection Hq as <-. injection Hk as <-.
  rewrite Hh, Hq', Hk', Hrv, Hsv. repeat split; lra.
Qed.

Lemma empty_window_zero_metrics_witness :
  date_key day_0310 < date_key day_0401 /\
  Forall (fun r => r_stock_history r = [] /\ r_quantity_sold r = Some 0%Q /\
                   r_stock_remaining r = Some 0%Q /\ (r_revenue r == 0)%Q /\
                   (r_stock_revenue r == 0)%Q)
         (filter_by_date_range_optimized (rows_of [raw_with_null_entry]) day_0401 day_0310).
Proof.
  split; [vm_compute; reflexivity|].
  apply empty_window_zero_metrics. left. vm_compute. reflexivity.
Defined.

(** C1 (as the claim states it): a product whose 51 fetched entries are
    all dated inside the window gets [quantity_sold = 50] and revenue
    50000 from the recomputation while its lifetime [total_sold] is 51 and
    its lifetime revenue 51000. *)
Lemma full_window_counterexample :
  forallb (fun r => forallb (in_window day_0310 day_0310) (r_stock_history r))
          (rows_of [raw_51_entries]) = true /\
  List.length (fetched_history raw_51_entries) = 51%nat /\
  map (fun r => (r_total_sold r, r_quantity_sold r, r_revenue r))
      (filter_by_date_range_optimized
         (apply_clustering_improved (rows_of [raw_51_entries])) day_0310 day_0310)
  = [(51%Z, Some 50%Q, 50000%Q)] /\
  map r_revenue (rows_of [raw_51_entries]) = [51000%Q].
Proof. vm_compute. repeat split. Qed.

(** C1 (amended): when a product's fetched history has at most 50
    entries, each a dict whose date parses and lies in the window, with
    integer, [null] or missing quantities, the frame the
    date filter returns for the clustered frame holds at that product's
    position the lifetime totals, revenue and stock revenue, whether the
    recomputation succeeded or the filter fell back to its input. *)
Theorem full_window_matches_lifetime (df : list row) (i : nat) (p : raw_product)
  (r : row) (start_date end_date : date) :
  load_product p = Some r ->
  nth_error df i = Some r ->
  (List.length (fetched_history p) <= 50)%nat ->
  forallb (fun en => in_window start_date end_date en && integral_entry en)
          (fetched_history p) = true ->
  exists r' q k,
    nth_error (filter_by_date_range_optimized (apply_clustering_improved df)
                 start_date end_date) i = Some r' /\
    r_quantity_sold r' = Some q /\ r_stock_remaining r' = Some k /\
    (q == inject_Z (r_total_sold r))%Q /\
    (k == inject_Z (r_total_stock_increased r))%Q /\
    (r_revenue r' == r_revenue r)%Q /\ (r_stock_revenue r' == r_stock_revenue r)%Q.
Proof.
  intros Hl Hi Hlen Hall.
  pose proof (load_product_some p r Hl) as (_ & _ & Hts & Hti & Hrev & Hsrev & Hh & _).
  rewrite firstn_all2 in Hh by lia.
  assert (Hwin : forall en, In en (fetched_history p) -> in_window start_date end_date en = true).
  { intros en Hen. rewrite forallb_forall in Hall. specialize (Hall en Hen).
    apply andb_true_iff in Hall as [H _]. exact H. }
  assert (Hint : forall en, In en (fetched_history p) -> integral_entry en = true).
  { intros en Hen. rewrite forallb_forall in Hall. specialize (Hall en Hen).
    apply andb_true_iff in Hall as [_ H]. exact H. }
  assert (Hplain : forallb plain_entry (fetched_history p) = true).
  { apply forallb_forall. intros en Hen. apply integral_entry_plain, Hint, Hen. }
  destruct (pipeline_totals_nonneg p) as [HnD HnI].
  destruct (round_integral_total (pipeline_total_sold p) (r_price r) HnD) as [HD1 HD2].
  { apply Qsum_integral. intros en Hen. exact (proj1 (integral_entry_Z en (Hint en Hen))). }
  destruct (round_integral_total (pipeline_total_stock_increased p) (r_price r) HnI)
    as [HI1 HI2].
  { apply Qsum_integral. intros en Hen. exact (proj2 (integral_entry_Z en (Hint en Hen))). }
  destruct (apply_clustering_nth df i r Hi) as [sg Hc].
  set (c := set_segment (Some sg) (set_lifetime_metrics r)) in Hc.
  pose proof (filter_by_date_Forall2
                (fun x y => y = x \/ recalculate_row start_date end_date x = Some y)
                (apply_clustering_improved df) start_date end_date
                (fun x => or_introl eq_refl) (fun x y H => or_intror H)) as HF.
  destruct (Forall2_nth_error _ _ _ _ _ HF Hc) as (r' & Hr' & [->|Hrec]).
  - exists c, (inject_Z (r_total_sold r)), (inject_Z (r_total_stock_increased r)).
    split; [exact Hr'|]. repeat split; reflexivity.
  - apply recalculate_row_some in Hrec
      as (q & k & Hq & Hk & _ & Hq' & Hk' & Hrv & Hsv & _).
    assert (Hf : filter_stock_history start_date end_date (r_stock_history c)
                 = fetched_history p).
    { change (r_stock_history c) with (r_stock_history r). rewrite Hh.
      apply filter_all_true. exact Hwin. }
    rewrite Hf in Hq, Hk.
    apply sum_opt_py_dec in Hq; [|exact Hplain].
    apply sum_opt_py_inc in Hk; [|exact Hplain].
    exists r', q, k. split; [exact Hr'|]. split; [exact Hq'|]. split; [exact Hk'|].
    change (r_price c) with (r_price r) in Hrv, Hsv.
    rewrite Hts, Hti, Hrv, Hsv, Hrev, Hsrev, Hq, Hk.
    fold (pipeline_total_sold p) (pipeline_total_stock_increased p).
    rewrite HD1, HI1, HD2, HI2. repeat split; reflexivity.
Qed.

Lemma full_window_matches_lifetime_witness :
  load_product (raw_of "p" "A" 1000 [entry_of "2025-03-10" 5 2]) <> None /\
  (forall r, load_product (raw_of "p" "A" 1000 [entry_of "2025-03-10" 5 2]) = Some r ->
   exists r' q k,
    nth_error (filter_by_date_range_optimized (apply_clustering_improved [r])
                 day_0310 day_0310) 0 = Some r' /\
    r_quantity_sold r' = Some q /\ r_stock_remaining r' = Some k /\
    (q == inject_Z (r_total_sold r))%Q /\
    (k == inject_Z (r_total_stock_increased r))%Q /\
    (r_revenue r' == r_revenue r)%Q /\ (r_stock_revenue r' == r_stock_revenue r)%Q).
Proof.
  split; [vm_compute; discriminate|].
  intros r Hr. apply (full_window_matches_lifetime [r] 0 _ r day_0310 day_0310 Hr).
  - reflexivity.
  - vm_compute. lia.
  - vm_compute. reflexivity.
Defined.

(** C4 (as the claim states it): the entry dated "not-a-date" stays in
    the stored movement list and its [stock_decreased] of 10 is counted
    in the lifetime [total_sold]; an in-window entry whose
    [stock_decreased] is [null] makes the recomputation raise, and the
    date filter then returns its input, malformed entry included; a date
    written with fullwidth digits parses and lies in the window. *)
Lemma malformed_entry_kept_counterexample :
  entry_date bad_entry = None /\
  option_map r_stock_history (load_product raw_with_bad_entry)
    = Some [bad_entry; entry_of "2025-03-10" 5 2] /\
  option_map r_total_sold (load_product raw_with_bad_entry) = Some 15 /\
  map r_stock_history
      (filter_by_date_range_optimized
         (apply_clustering_improved (rows_of [raw_with_null_entry])) day_0310 day_0310)
    = [[bad_entry; null_entry]] /\
  map (in_window day_0310 day_0310) (fetched_history raw_fullwidth) = [true].
Proof. vm_compute. repeat split. Qed.

(** C4 (amended): normalization keeps every fetched entry (up to 50) in
    the stored list, malformed or not, and the lifetime totals count all
    fetched entries; an entry that is not a dict or has no parsable date
    is skipped when collecting the date range and dropped by the window
    recomputation, which aggregates the in-window entries; when one of
    those raises in [float], the date filter returns its whole input
    frame, malformed entries included. *)
Theorem malformed_entries_kept_until_window (p : raw_product) (r : row) :
  load_product p = Some r ->
  r_stock_history r = firstn 50 (fetched_history p) /\
  r_total_sold r = round_half_even (qmax0 (Qsum (map mongo_dec (fetched_history p)))) /\
  r_total_stock_increased r
    = round_half_even (qmax0 (Qsum (map mongo_inc (fetched_history p)))) /\
  (forall d, In d (product_dates r) <->
             exists en, In en (r_stock_history r) /\ entry_date en = Some d) /\
  (forall s e en, entry_date en = None -> in_window s e en = false) /\
  (forall s e r0 r', r_stock_history r0 = r_stock_history r ->
     recalculate_row s e r0 = Some r' ->
     (forall en, In en (r_stock_history r') <->
                 In en (r_stock_history r) /\ in_window s e en = true) /\
     r_quantity_sold r' = sum_opt (map py_dec (r_stock_history r')) /\
     r_stock_remaining r' = sum_opt (map py_inc (r_stock_history r'))) /\
  (forall s e r0, r_stock_history r0 = r_stock_history r ->
     (recalculate_row s e r0 = None <->
      exists en, In en (r_stock_history r) /\ in_window s e en = true /\
                 (py_dec en = None \/ py_inc en = None))) /\
  (forall df s e r0, In r0 df -> recalculate_row s e r0 = None ->
     filter_by_date_range_optimized df s e = df).
Proof.
  intros Hl. apply load_product_some in Hl as (_ & _ & Hts & Hti & _ & _ & Hh & _).
  split; [exact Hh|]. split; [exact Hts|]. split; [exact Hti|]. split.
  { intros d. unfold product_dates. rewrite in_flat_map. split.
    - intros (en & Hen & Hd). exists en. split; [exact Hen|].
      destruct (entry_date en) as [d'|]; simpl in Hd; [|contradiction].
      destruct Hd as [<-|[]]. reflexivity.
    - intros (en & Hen & Hd). exists en. rewrite Hd. split; [exact Hen|left; reflexivity]. }
  split; [intros s e en Hn; unfold in_window; rewrite Hn; reflexivity|].
  split.
  { intros s e r0 r' H0 Hrec.
    apply recalculate_row_some in Hrec as (q & k & Hq & Hk & Hh' & Hq' & Hk' & _).
    rewrite Hh', Hq', Hk', Hq, Hk. split; [|split; reflexivity].
    intros en. unfold filter_stock_history. rewrite filter_In, H0. reflexivity. }
  split.
  { intros s e r0 H0. rewrite recalculate_row_none. unfold filter_stock_history.
    rewrite H0. split.
    - intros (en & Hen & Hn). apply filter_In in Hen as [Hen Hw]. eauto.
    - intros (en & Hen & Hw & Hn). exists en. rewrite filter_In. auto. }
  intros df s e r0 Hr0 Hn.
  destruct (filter_by_date_cases df s e) as [E|[_ E]]; [|exact E].
  apply map_opt_Forall2 in E. exfalso.
  apply In_nth_error in Hr0 as [i Hi].
  destruct (Forall2_nth_error _ _ _ _ _ E Hi) as (y & _ & Hy). congruence.
Qed.

Lemma malformed_entries_kept_until_window_witness :
  load_product raw_with_null_entry <> None /\
  (forall r, load_product raw_with_null_entry = Some r ->
     recalculate_row day_0310 day_0310 r = None /\
     filter_by_date_range_optimized [r] day_0310 day_0310 = [r]).
Proof.
  split; [vm_compute; discriminate|].
  intros r Hr.
  destruct (malformed_entries_kept_until_window raw_with_null_entry r Hr)
    as (Hh & _ & _ & _ & _ & _ & Hn & Hf).
  assert (H : recalculate_row day_0310 day_0310 r = None).
  { apply (Hn day_0310 day_0310 r eq_refl). exists null_entry. rewrite Hh.
    vm_compute. split; [right; left; reflexivity|]. split; [reflexivity|].
    left; reflexivity. }
  split; [exact H|]. apply (Hf [r] day_0310 day_0310 r); [left; reflexivity|exact H].
Defined.

(** C2 (as the claim states it): with category "A" selected, the
    dashboard reclassifies the two remaining products, and the product
    priced 2000 moves from the lifetime tier [TrungBinh] to [Cao]. *)
Lemma tier_recomputed_counterexample :
  map r_segment (apply_clustering_improved three_products)
    = [Some Thap; Some TrungBinh; Some Cao] /\
  map r_segment (dashboard_filtered_df three_products select_A day_0310 day_0310)
    = [Some Thap; Some Cao].
Proof. vm_compute. split; reflexivity. Qed.

(** C2 (amended): the date-window recomputation leaves every row's tier
    as it was; the tiers of the dashboard's final [filtered_df] are then
    assigned by [categorize_price_segment] from the prices of the rows
    left by the category, tier and product selections. *)
Theorem date_window_keeps_tier_then_reclassified (df : list row) (sel : selection)
  (start_date end_date : date) :
  map r_segment (filter_by_date_range_optimized df start_date end_date)
    = map r_segment df /\
  map r_segment (dashboard_filtered_df df sel start_date end_date)
    = map Some (categorize_price_column (price_column (dashboard_selected df sel))).
Proof.
  split; [apply segment_filter_by_date|].
  unfold dashboard_filtered_df, categorize_price_segment.
  rewrite map_segment_assign, price_column_filter_by_date; [reflexivity|].
  rewrite categorize_price_column_length. unfold price_column.
  rewrite length_map. reflexivity.
Qed.

(** C3: at this input the rollup the dashboard shows (the second
    [calculate_segment_analysis]) has two rows, [Cao] then [Thap], each
    with revenue and quantity 0, and no [TrungBinh] row. *)
Theorem rollup_rows_at_failing_input :
  map (fun st => (s_segment st, s_revenue st, s_quantity_sold st,
                  s_revenue_pct st, s_quantity_pct st))
    (dashboard_segment_analysis three_products select_A day_0310 day_0310 BanHang)
    = [(Cao, 0%Q, 0%Q, 0%Q, 0%Q); (Thap, 0%Q, 0%Q, 0%Q, 0%Q)].
Proof. vm_compute. reflexivity. Qed.

(** C5: [categorize_price_segment] assigns one tier per row and never
    fails.  If every price is NaN (or there is no row) every tier is
    [KhongXacDinh]; otherwise both quartiles exist and: when they
    differ, a price [<= p25] is [Thap], one in [(p25, p75]] is
    [TrungBinh], one [> p75] is [Cao]; when they are equal but the
    minimum and maximum price differ, a price below their midpoint is
    [Thap], one at or above it [Cao], and no row is [TrungBinh]; when the
    minimum equals the maximum every row is [TrungBinh]. *)
Theorem categorize_price_column_branches (col : list (option Q)) :
  let segs := categorize_price_column col in
  List.length segs = List.length col /\
  (forallb is_none col = true -> Forall (fun s => s = KhongXacDinh) segs) /\
  (forallb is_none col = false ->
   exists p25 p75,
     quantile (1 # 4) col = Some p25 /\ quantile (3 # 4) col = Some p75 /\
     (~ (p25 == p75)%Q ->
        forall x s, In (Some x, s) (combine col segs) ->
          ((x <= p25)%Q -> s = Thap) /\
          ((p25 < x)%Q -> (x <= p75)%Q -> s = TrungBinh) /\
          ((p75 < x)%Q -> s = Cao)) /\
     ((p25 == p75)%Q -> ~ (col_min col == col_max col)%Q ->
        (forall x s, In (Some x, s) (combine col segs) ->
           ((x < (col_min col + col_max col) / 2)%Q -> s = Thap) /\
           (((col_min col + col_max col) / 2 <= x)%Q -> s = Cao)) /\
        ~ In TrungBinh segs) /\
     ((p25 == p75)%Q -> (col_min col == col_max col)%Q ->
        Forall (fun s => s = TrungBinh) segs)).
Proof.
  intros segs. split; [apply categorize_price_column_length|]. split.
  { intros Hn. subst segs. unfold categorize_price_column. rewrite Hn.
    apply Forall_forall. intros s Hs. apply in_map_iff in Hs as (_ & <- & _).
    reflexivity. }
  intros Hnn.
  destruct (quantile_defined (1 # 4) col Hnn) as [p25 E25].
  destruct (quantile_defined (3 # 4) col Hnn) as [p75 E75].
  pose proof (quartiles_ordered col p25 p75 E25 E75) as Hle.
  exists p25, p75. split; [exact E25|]. split; [exact E75|]. split; [|split].
  - intros Hne x s Hin. subst segs. revert Hin. classifier_branch Hnn E25 E75.
    destruct (Qeq_bool p25 p75) eqn:Eq;
      [apply Qeq_bool_iff in Eq; contradiction|].
    intros Hin. apply in_combine_map in Hin. subst s. unfold classify_segment.
    split; [|split].
    + intros Hx. apply Qle_bool_iff in Hx. rewrite Hx. reflexivity.
    + intros H1 H2.
      assert (E1 : Qle_bool x p25 = false).
      { apply not_true_iff_false. rewrite Qle_bool_iff. intros H. lra. }
      rewrite E1. apply Qle_bool_iff in H2. rewrite H2. reflexivity.
    + intros H1.
      assert (E1 : Qle_bool x p25 = false).
      { apply not_true_iff_false. rewrite Qle_bool_iff. intros H. lra. }
      assert (E2 : Qle_bool x p75 = false).
      { apply not_true_iff_false. rewrite Qle_bool_iff. intros H. lra. }
      rewrite E1, E2. reflexivity.
  - intros Heq Hmm. subst segs. classifier_branch Hnn E25 E75.
    assert (Eq : Qeq_bool p25 p75 = true) by (apply Qeq_bool_iff; exact Heq).
    assert (Em : Qeq_bool (col_min col) (col_max col) = false).
    { apply not_true_iff_false. rewrite Qeq_bool_iff. exact Hmm. }
    rewrite Eq, Em. split.
    + intros x s Hin. apply in_combine_map in Hin. subst s.
      unfold split_at_mid, Qltb. split.
      * intros Hx. assert (E : Qle_bool ((col_min col + col_max col) / 2) x = false).
        { apply not_true_iff_false. rewrite Qle_bool_iff. intros H. lra. }
        rewrite E. reflexivity.
      * intros Hx. apply Qle_bool_iff in Hx. rewrite Hx. reflexivity.
    + intros Hin. apply in_map_iff in Hin as ([x|] & Hs & _); unfold split_at_mid in Hs;
        [destruct (Qltb _ _)|]; discriminate.
  - intros Heq Hmm. subst segs. classifier_branch Hnn E25 E75.
    assert (Eq : Qeq_bool p25 p75 = true) by (apply Qeq_bool_iff; exact Heq).
    assert (Em : Qeq_bool (col_min col) (col_max col) = true) by (apply Qeq_bool_iff; exact Hmm).
    rewrite Eq, Em. apply Forall_forall. intros s Hs.
    apply in_map_iff in Hs as (_ & <- & _). reflexivity.
Qed.

Lemma Qsum_pct {A} (g : A -> Q) (l : list A) (T : Q) :
  (0 < T)%Q -> (Qsum (map (fun x => pct (g x) T) l) == Qsum (map g l) / T * 100)%Q.
Proof.
  intros HT. assert (HT' : Qltb 0 T = true) by (apply Qltb_iff; exact HT).
  induction l as [|x l IH]; simpl.
  - unfold Qdiv. rewrite Qmult_0_l. reflexivity.
  - unfold pct at 1. rewrite HT', IH. unfold Qdiv. ring.
Qed.

Lemma pct_zero x T : (T == 0)%Q -> pct x T = 0%Q.
Proof.
  intros H. unfold pct. destruct (Qltb 0 T) eqn:E; [|reflexivity].
  apply Qltb_iff in E. exfalso. rewrite H in E. apply (Qlt_irrefl 0). exact E.
Qed.

Lemma Qdiv_self_100 (T : Q) : (0 < T)%Q -> (T / T * 100 == 100)%Q.
Proof. intros HT. field. intros H. rewrite H in HT. apply (Qlt_irrefl 0). exact HT. Qed.

(** C6: in either display mode, the [revenue_pct] values of the rollup
    sum to 100 when the total revenue is positive, the [quantity_pct]
    values sum to 100 when the total quantity is positive, and every
    percentage is exactly 0 when its total is 0. *)
Theorem rollup_percentages (df : list row) (m : display_mode) :
  let out := calculate_segment_analysis df m in
  let total_revenue := Qsum (map s_revenue out) in
  let total_quantity := Qsum (map s_quantity_sold out) in
  ((0 < total_revenue)%Q -> (Qsum (map s_revenue_pct out) == 100)%Q) /\
  ((0 < total_quantity)%Q -> (Qsum (map s_quantity_pct out) == 100)%Q) /\
  ((total_revenue == 0)%Q -> Forall (fun st => s_revenue_pct st = 0%Q) out) /\
  ((total_quantity == 0)%Q -> Forall (fun st => s_quantity_pct st = 0%Q) out).
Proof.
  intros out total_revenue total_quantity.
  destruct df as [|r0 df0].
  { subst out total_revenue total_quantity. simpl.
    repeat split; intros H; try constructor; lra. }
  set (stats := segment_groups m (r0 :: df0)) in *.
  set (TR := Qsum (map (fun '(_, r, _) => r) stats)).
  set (TQ := Qsum (map (fun '(_, _, q) => q) stats)).
  assert (Hout : out = map (fun '(k, r, q) =>
             {| s_segment := k; s_revenue := r; s_quantity_sold := q;
                s_revenue_pct := pct r TR; s_quantity_pct := pct q TQ |}) stats)
    by reflexivity.
  assert (HR : total_revenue = TR).
  { subst total_revenue TR. rewrite Hout, map_map. f_equal. apply map_ext.
    intros [[k r] q]. reflexivity. }
  assert (HQ : total_quantity = TQ).
  { subst total_quantity TQ. rewrite Hout, map_map. f_equal. apply map_ext.
    intros [[k r] q]. reflexivity. }
  rewrite HR, HQ. clear HR HQ total_revenue total_quantity.
  assert (HRp : map s_revenue_pct out = map (fun x => pct ((fun '(_, r, _) => r) x) TR) stats).
  { rewrite Hout, map_map. apply map_ext. intros [[k r] q]. reflexivity. }
  assert (HQp : map s_quantity_pct out = map (fun x => pct ((fun '(_, _, q) => q) x) TQ) stats).
  { rewrite Hout, map_map. apply map_ext. intros [[k r] q]. reflexivity. }
  split; [|split; [|split]].
  - intros H. rewrite HRp, Qsum_pct by exact H. fold TR. apply Qdiv_self_100. exact H.
  - intros H. rewrite HQp, Qsum_pct by exact H. fold TQ. apply Qdiv_self_100. exact H.
  - intros H. apply Forall_forall. intros st Hst.
    assert (Hin : In (s_revenue_pct st) (map s_revenue_pct out)) by (apply in_map; exact Hst).
    rewrite HRp in Hin. apply in_map_iff in Hin as (x & Hx & _).
    rewrite <- Hx. apply pct_zero. exact H.
  - intros H. apply Forall_forall. intros st Hst.
    assert (Hin : In (s_quantity_pct st) (map s_quantity_pct out)) by (apply in_map; exact Hst).
    rewrite HQp in Hin. apply in_map_iff in Hin as (x & Hx & _).
    rewrite <- Hx. apply pct_zero. exact H.
Qed.

(** ** The worked examples of the specification *)

Open Scope string_scope.

(** Two products, windowed to 2025-04-01: the first sells 0, the second 3;
    their lifetime totals are 5 and 3. *)
Example spec_window_example :
  let df := apply_clustering_improved
              (rows_of [raw_of "p1" "A" 1000 [entry_of "2025-03-10" 5 2];
                        raw_of "p2" "A" 5000 [entry_of "2025-04-01" 3 0]]) in
  map r_total_sold df = [5%Z; 3%Z] /\
  map r_quantity_sold (filter_by_date_range_optimized df day_0401 day_0401)
    = [Some 0%Q; Some 3%Q].
Proof. vm_compute. split; reflexivity. Qed.

Close Scope string_scope.

(** Two identical prices give [TrungBinh] for both, not [KhongXacDinh]. *)
Example spec_identical_prices_example :
  categorize_price_column [Some (inject_Z 1000); Some (inject_Z 1000)]
    = [TrungBinh; TrungBinh].
Proof. vm_compute. reflexivity. Qed.

(** * Further properties of the code *)

(** ** Loading *)

(** Every loaded row has [1000 <= price <= 10^9] (the [$round]ed price
    of the [$match]ed range, raised to 1000) and non-negative [revenue]
    and [stock_revenue]. *)
Theorem loaded_row_price_bounds (p : raw_product) (r : row) :
  load_product p = Some r ->
  (1000 <= r_price r <= 1000000000)%Z /\ (0 <= r_revenue r)%Q /\ (0 <= r_stock_revenue r)%Q.
Proof.
  intros H. pose proof (load_product_some p r H) as (Hm & Hp & _ & _ & Hrv & Hsv & _).
  unfold pipeline_match in Hm. destruct (p_price p) as [pr|] eqn:Ep; [|discriminate].
  apply andb_true_iff in Hm as [H1 H2]. apply Qltb_iff in H1, H2.
  simpl in Hp.
  assert (Hr : (round_half_even pr <= 1000000000)%Z).
  { pose proof (round_half_even_bounds pr) as [_ Hb].
    destruct (Z.le_gt_cases (round_half_even pr) 1000000000) as [|Hg]; [assumption|].
    exfalso. assert (Hq : (inject_Z 1000000001 <= inject_Z (round_half_even pr))%Q)
      by (rewrite <- Zle_Qle; lia).
    change (inject_Z 1000000000) with (1000000000 # 1)%Q in H2.
    change (inject_Z 1000000001) with (1000000001 # 1)%Q in Hq. lra. }
  assert (Hpos : (0 <= inject_Z (r_price r))%Q).
  { change 0%Q with (inject_Z 0). rewrite <- Zle_Qle. lia. }
  split; [lia|]. rewrite Hrv, Hsv. split.
  - change 0%Q with (inject_Z 0). rewrite <- Zle_Qle. apply round_half_even_nonneg.
    apply Qmult_le_0_compat; [exact Hpos|apply qmax0_nonneg].
  - change 0%Q with (inject_Z 0). rewrite <- Zle_Qle. apply round_half_even_nonneg.
    apply Qmult_le_0_compat; [exact Hpos|apply qmax0_nonneg].
Qed.

Lemma loaded_row_price_bounds_witness :
  load_product raw_price_near_cap <> None /\
  (forall r, load_product raw_price_near_cap = Some r ->
     r_price r = 1000000000%Z /\
     (1000 <= r_price r <= 1000000000)%Z /\ (0 <= r_revenue r)%Q /\
     (0 <= r_stock_revenue r)%Q).
Proof.
  split; [vm_compute; discriminate|].
  intros r Hr. split.
  - apply load_product_some in Hr as (_ & -> & _). vm_compute. reflexivity.
  - exact (loaded_row_price_bounds raw_price_near_cap r Hr).
Defined.
Lemma min_date_of_spec (l : list date) (a : date) :
  In (min_date_of a l) (a :: l) /\ date_key (min_date_of a l) <= date_key a /\
  (forall x, In x l -> date_key (min_date_of a l) <= date_key x).
Proof.
  unfold min_date_of. revert a. induction l as [|b l IH]; intros a; simpl.
  - split; [left; reflexivity|]. split; [lia | tauto].
  - set (a' := if date_leb b a then b else a).
    destruct (IH a') as (Hin & Hle & Hall).
    assert (Ha' : date_key a' <= date_key a /\ date_key a' <= date_key b /\
                  (a' = a \/ a' = b))
      by (unfold a', date_leb; destruct (Z.leb_spec (date_key b) (date_key a)); auto with zarith).
    destruct Ha' as (H1 & H2 & H3). clearbody a'.
    split; [destruct Hin as [<-|Hin]; [destruct H3; subst; simpl; auto | simpl; auto]|].
    split; [lia|]. intros x [<-|Hx]; [lia | auto].
Qed.

Lemma max_date_of_spec (l : list date) (a : date) :
  In (max_date_of a l) (a :: l) /\ date_key a <= date_key (max_date_of a l) /\
  (forall x, In x l -> date_key x <= date_key (max_date_of a l)).
Proof.
  unfold max_date_of. revert a. induction l as [|b l IH]; intros a; simpl.
  - split; [left; reflexivity|]. split; [lia | tauto].
  - set (a' := if date_leb a b then b else a).
    destruct (IH a') as (Hin & Hle & Hall).
    assert (Ha' : date_key a <= date_key a' /\ date_key b <= date_key a' /\
                  (a' = a \/ a' = b))
      by (unfold a', date_leb; destruct (Z.leb_spec (date_key a) (date_key b)); auto with zarith).
    destruct Ha' as (H1 & H2 & H3). clearbody a'.
    split; [destruct Hin as [<-|Hin]; [destruct H3; subst; simpl; auto | simpl; auto]|].
    split; [lia|]. intros x [<-|Hx]; [lia | auto].
Qed.

(** The default date range of the sidebar is 2025-03-05 .. 2025-05-25 when
    no stored movement has a parsable date; otherwise it is the earliest
    and the latest of those dates, both taken from the collected dates. *)
Theorem load_date_range (raws : list raw_product) :
  let ds := flat_map product_dates (rows_of raws) in
  let mn := snd (fst (load_data_optimized raws)) in
  let mx := snd (load_data_optimized raws) in
  (ds = [] -> mn = mkdate 2025 3 5 /\ mx = mkdate 2025 5 25) /\
  (ds <> [] -> In mn ds /\ In mx ds) /\
  (forall d, In d ds -> date_key mn <= date_key d <= date_key mx).
Proof.
  unfold rows_of, load_data_optimized. cbv zeta.
  set (rows := flat_map _ raws).
  destruct (flat_map product_dates rows) as [|d ds] eqn:E; simpl; rewrite E.
  - split; [auto|]. split; [congruence | simpl; tauto].
  - destruct (min_date_of_spec ds d) as (Hmin & Hmin0 & Hminall).
    destruct (max_date_of_spec ds d) as (Hmax & Hmax0 & Hmaxall).
    split; [discriminate|]. split; [auto|].
    intros x [<-|Hx]; [lia|]. split; auto.
Qed.

(** ** The date window *)

Lemma in_firstn {A} (n : nat) (l : list A) x : In x (firstn n l) -> In x l.
Proof.
  revert n. induction l as [|y l IH]; intros [|n]; simpl; try tauto.
  intros [<-|H]; [left; reflexivity|right; exact (IH n H)].
Qed.

Lemma filter_filter_andb {A} (f g : A -> bool) (l : list A) :
  filter f (filter g l) = filter (fun x => g x && f x) l.
Proof.
  induction l as [|x l IH]; simpl; [reflexivity|].
  destruct (g x); simpl; [destruct (f x); simpl; rewrite ?IH|]; reflexivity || exact IH.
Qed.

Lemma in_window_inter s1 e1 s2 e2 s e en :
  date_key s = Z.max (date_key s1) (date_key s2) ->
  date_key e = Z.min (date_key e1) (date_key e2) ->
  in_window s1 e1 en && in_window s2 e2 en = in_window s e en.
Proof.
  intros Hs He. unfold in_window, date_leb.
  destruct (entry_date en) as [d|]; [|reflexivity].
  apply eq_true_iff_eq. rewrite !andb_true_iff, !Z.leb_le. lia.
Qed.

Lemma in_window_sub s1 e1 s2 e2 en :
  date_key s2 <= date_key s1 -> date_key e1 <= date_key e2 ->
  in_window s1 e1 en = true -> in_window s2 e2 en = true.
Proof.
  intros Hs He. unfold in_window, date_leb. destruct (entry_date en); [|auto].
  rewrite !andb_true_iff, !Z.leb_le. lia.
Qed.

(** Recomputing a recomputed row over a second window is recomputing the
    original row over the intersection of the two windows. *)
Lemma recalculate_row_nested s1 e1 s2 e2 s e r r1 :
  date_key s = Z.max (date_key s1) (date_key s2) ->
  date_key e = Z.min (date_key e1) (date_key e2) ->
  recalculate_row s1 e1 r = Some r1 ->
  recalculate_row s2 e2 r1 = recalculate_row s e r.
Proof.
  intros Hs He H1.
  assert (Hh : filter_stock_history s2 e2 (filter_stock_history s1 e1 (r_stock_history r))
               = filter_stock_history s e (r_stock_history r)).
  { unfold filter_stock_history. rewrite filter_filter_andb.
    apply filter_ext. intros en. apply in_window_inter; assumption. }
  revert H1. unfold recalculate_row at 1.
  destruct (sum_opt (map py_dec (filter_stock_history s1 e1 _))); [|discriminate].
  destruct (sum_opt (map py_inc (filter_stock_history s1 e1 _))); [|discriminate].
  intros [= <-]. unfold recalculate_row. cbn [r_id r_name r_category r_price r_promotion
    r_total_sold r_total_stock_increased r_stock_history r_segment].
  rewrite Hh. reflexivity.
Qed.

(** A window inside one where a row's recomputation succeeds lets it
    succeed too. *)
Lemma recalculate_row_sub s1 e1 s2 e2 r :
  date_key s2 <= date_key s1 -> date_key e1 <= date_key e2 ->
  recalculate_row s2 e2 r <> None -> recalculate_row s1 e1 r <> None.
Proof.
  intros Hs He H2 H1. apply H2. apply recalculate_row_none in H1 as (en & Hen & Hn).
  apply recalculate_row_none. exists en. split; [|exact Hn].
  unfold filter_stock_history in *. apply filter_In in Hen as [Hen Hw].
  apply filter_In. split; [exact Hen|]. exact (in_window_sub s1 e1 s2 e2 en Hs He Hw).
Qed.

Lemma sum_opt_filter_mono {A} (f : A -> option Q) (g1 g2 : A -> bool) (l : list A) q2 :
  (forall x q, f x = Some q -> (0 <= q)%Q) -> (forall x, g1 x = true -> g2 x = true) ->
  sum_opt (map f (filter g2 l)) = Some q2 ->
  exists q1, sum_opt (map f (filter g1 l)) = Some q1 /\ (q1 <= q2)%Q.
Proof.
  intros Hf Hg. revert q2. induction l as [|x l IH]; intros q2; simpl.
  - intros [= <-]. exists 0%Q. split; [reflexivity|lra].
  - specialize (Hg x). destruct (g2 x) eqn:E2, (g1 x) eqn:E1; simpl.
    + destruct (f x) as [y|] eqn:Ey; [|discriminate].
      destruct (sum_opt (map f (filter g2 l))) as [t|]; [|discriminate].
      intros [= <-]. destruct (IH t eq_refl) as (q1 & -> & Hq1).
      exists (y + q1)%Q. split; [reflexivity|lra].
    + destruct (f x) as [y|] eqn:Ey; [|discriminate].
      destruct (sum_opt (map f (filter g2 l))) as [t|]; [|discriminate].
      intros [= <-]. destruct (IH t eq_refl) as (q1 & -> & Hq1).
      pose proof (Hf x y Ey). exists q1. split; [reflexivity|lra].
    + pose proof (Hg eq_refl). discriminate.
    + exact (IH q2).
Qed.

(** For a loaded row whose fetched quantities are numbers, [null] or
    absent, a successful recomputation over any window gives a
    [quantity_sold], [stock_remaining], [revenue] and [stock_revenue] at
    most half a unit above the lifetime values, which are the pipeline's
    sums rounded to integers. *)
Theorem windowed_metrics_within_lifetime (p : raw_product) (r r' : row)
  (start_date end_date : date) :
  load_product p = Some r ->
  forallb plain_entry (fetched_history p) = true ->
  recalculate_row start_date end_date r = Some r' ->
  exists q k, r_quantity_sold r' = Some q /\ r_stock_remaining r' = Some k /\
    (q <= inject_Z (r_total_sold r) + (1 # 2))%Q /\
    (k <= inject_Z (r_total_stock_increased r) + (1 # 2))%Q /\
    (r_revenue r' <= r_revenue r + (1 # 2))%Q /\
    (r_stock_revenue r' <= r_stock_revenue r + (1 # 2))%Q.
Proof.
  intros Hl Hpl Hrec.
  pose proof (load_product_some p r Hl) as (_ & Hp & Hts & Hti & Hrv & Hsv & Hh & _).
  apply recalculate_row_some in Hrec as (q & k & Hq & Hk & _ & Hq' & Hk' & Hrv' & Hsv' & _).
  set (h := filter_stock_history start_date end_date (r_stock_history r)) in *.
  assert (Hph : forallb plain_entry h = true).
  { apply forallb_forall. intros en Hen. subst h. unfold filter_stock_history in Hen.
    apply filter_In in Hen as [Hen _]. rewrite Hh in Hen. apply in_firstn in Hen.
    rewrite forallb_forall in Hpl. exact (Hpl en Hen). }
  apply sum_opt_py_dec in Hq; [|exact Hph]. apply sum_opt_py_inc in Hk; [|exact Hph].
  assert (HqT : (q <= pipeline_total_sold p)%Q).
  { rewrite Hq. subst h. unfold filter_stock_history. rewrite Hh.
    eapply Qle_trans; [apply Qsum_filter_le, mongo_dec_nonneg|].
    apply Qsum_firstn_le, mongo_dec_nonneg. }
  assert (HkT : (k <= pipeline_total_stock_increased p)%Q).
  { rewrite Hk. subst h. unfold filter_stock_history. rewrite Hh.
    eapply Qle_trans; [apply Qsum_filter_le, mongo_inc_nonneg|].
    apply Qsum_firstn_le, mongo_inc_nonneg. }
  pose proof (qmax0_ge (pipeline_total_sold p)).
  pose proof (qmax0_ge (pipeline_total_stock_increased p)).
  assert (Hpos : (0 <= inject_Z (r_price r))%Q).
  { change 0%Q with (inject_Z 0). rewrite <- Zle_Qle. rewrite Hp. lia. }
  pose proof (round_half_even_bounds (qmax0 (pipeline_total_sold p))) as [B1 _].
  pose proof (round_half_even_bounds (qmax0 (pipeline_total_stock_increased p))) as [B2 _].
  pose proof (round_half_even_bounds
                (inject_Z (r_price r) * qmax0 (pipeline_total_sold p))) as [B3 _].
  pose proof (round_half_even_bounds
                (inject_Z (r_price r) * qmax0 (pipeline_total_stock_increased p))) as [B4 _].
  assert (M1 : (inject_Z (r_price r) * q <=
                inject_Z (r_price r) * qmax0 (pipeline_total_sold p))%Q).
  { rewrite !(Qmult_comm (inject_Z (r_price r))). apply Qmult_le_compat_r; [lra|exact Hpos]. }
  assert (M2 : (inject_Z (r_price r) * k <=
                inject_Z (r_price r) * qmax0 (pipeline_total_stock_increased p))%Q).
  { rewrite !(Qmult_comm (inject_Z (r_price r))). apply Qmult_le_compat_r; [lra|exact Hpos]. }
  exists q, k. split; [exact Hq'|]. split; [exact Hk'|].
  rewrite Hts, Hti, Hrv', Hsv', Hrv, Hsv. repeat split; lra.
Qed.

Lemma windowed_metrics_within_lifetime_witness :
  load_product raw_fractional <> None /\
  (forall r, load_product raw_fractional = Some r ->
     r_total_sold r = 1%Z /\ recalculate_row day_0310 day_0310 r <> None /\
     (forall r', recalculate_row day_0310 day_0310 r = Some r' ->
        (exists q0, r_quantity_sold r' = Some q0 /\ (q0 == 6 # 5)%Q) /\
        exists q k, r_quantity_sold r' = Some q /\ r_stock_remaining r' = Some k /\
          (q <= inject_Z (r_total_sold r) + (1 # 2))%Q /\
          (k <= inject_Z (r_total_stock_increased r) + (1 # 2))%Q /\
          (r_revenue r' <= r_revenue r + (1 # 2))%Q /\
          (r_stock_revenue r' <= r_stock_revenue r + (1 # 2))%Q)).
Proof.
  split; [vm_compute; discriminate|].
  intros r Hr.
  assert (Hr' : load_product raw_fractional = Some r) by exact Hr.
  vm_compute in Hr. injection Hr as <-. split; [reflexivity|].
  split; [vm_compute; discriminate|].
  intros r' Hrec. split.
  - vm_compute in Hrec. injection Hrec as <-. eexists. split; [reflexivity|].
    vm_compute. reflexivity.
  - apply (windowed_metrics_within_lifetime raw_fractional _ r' day_0310 day_0310 Hr').
    + vm_compute. reflexivity.
    + exact Hrec.
Defined.

Lemma map_opt_Forall2_compose {A B C} (f : A -> option B) (g : B -> option C)
  (h : A -> option C) l l' :
  Forall2 (fun x y => f x = Some y) l l' ->
  (forall x y, f x = Some y -> g y = h x) ->
  map_opt g l' = map_opt h l.
Proof.
  intros HF Hgh. induction HF as [|x y l l' Hxy HF IH]; simpl; [reflexivity|].
  rewrite (Hgh x y Hxy), IH. reflexivity.
Qed.

(** When the first window's recomputation succeeds (no in-window
    quantity makes [float] raise), filtering the result with a second
    window is filtering once with the intersection of the two windows
    (latest start, earliest end). *)
Theorem nested_date_windows (df : list row) (s1 e1 s2 e2 s e : date) :
  date_key s = Z.max (date_key s1) (date_key s2) ->
  date_key e = Z.min (date_key e1) (date_key e2) ->
  window_recomputes df s1 e1 = true ->
  filter_by_date_range_optimized (filter_by_date_range_optimized df s1 e1) s2 e2
  = filter_by_date_range_optimized df s e.
Proof.
  intros Hs He Hw. apply window_recomputes_filter in Hw.
  set (df1 := filter_by_date_range_optimized df s1 e1) in *.
  assert (Hc : map_opt (recalculate_row s2 e2) df1 = map_opt (recalculate_row s e) df).
  { apply (map_opt_Forall2_compose (recalculate_row s1 e1)); [apply map_opt_Forall2; exact Hw|].
    intros x y H. apply (recalculate_row_nested s1 e1 s2 e2 s e x y Hs He H). }
  assert (Hn : map_opt (recalculate_row s e) df <> None).
  { apply map_opt_Some_iff. intros x Hx.
    apply (recalculate_row_sub s e s1 e1 x); [lia|lia|].
    assert (H1 : map_opt (recalculate_row s1 e1) df <> None) by congruence.
    rewrite map_opt_Some_iff in H1. exact (H1 x Hx). }
  destruct (filter_by_date_cases df s e) as [E|[E _]]; [|contradiction].
  destruct (filter_by_date_cases df1 s2 e2) as [E1|[E1 _]]; [|congruence].
  congruence.
Qed.

Lemma nested_date_windows_witness :
  date_key day_0310 = Z.max (date_key day_0310) (date_key day_0310) /\
  date_key day_0401 = Z.min (date_key day_0401) (date_key day_0401) /\
  window_recomputes two_stocked_products day_0310 day_0401 = true /\
  filter_by_date_range_optimized
    (filter_by_date_range_optimized two_stocked_products day_0310 day_0401) day_0310 day_0401
  = filter_by_date_range_optimized two_stocked_products day_0310 day_0401.
Proof.
  split; [reflexivity|]. split; [reflexivity|]. split; [vm_compute; reflexivity|].
  apply nested_date_windows; [reflexivity|reflexivity|vm_compute; reflexivity].
Defined.

(** Applying [filter_by_date_range_optimized] twice with the same window
    changes nothing the second time, whether the first application
    recomputed the rows or fell back to its input. *)
Theorem date_filter_idempotent (df : list row) (start_date end_date : date) :
  filter_by_date_range_optimized
    (filter_by_date_range_optimized df start_date end_date) start_date end_date
  = filter_by_date_range_optimized df start_date end_date.
Proof.
  destruct (filter_by_date_cases df start_date end_date) as [E|[_ E]].
  - set (df1 := filter_by_date_range_optimized df start_date end_date) in *.
    assert (Hc : map_opt (recalculate_row start_date end_date) df1 = Some df1).
    { rewrite <- E. apply (map_opt_Forall2_compose (recalculate_row start_date end_date));
        [apply map_opt_Forall2; exact E|].
      intros x y H. apply (recalculate_row_nested start_date end_date start_date end_date
                             start_date end_date x y); [lia|lia|exact H]. }
    destruct (filter_by_date_cases df1 start_date end_date) as [E1|[E1 _]]; congruence.
  - rewrite E. exact E.
Qed.

(** Widening the window never lowers a row's recomputed [quantity_sold]
    or [stock_remaining]: when the recomputation over the wider window
    succeeds, the one over the narrower window succeeds too, with values
    no larger. *)
Theorem wider_window_larger_metrics (r r2 : row) (s1 e1 s2 e2 : date) :
  date_key s2 <= date_key s1 -> date_key e1 <= date_key e2 ->
  recalculate_row s2 e2 r = Some r2 ->
  exists r1 q1 k1 q2 k2,
    recalculate_row s1 e1 r = Some r1 /\
    r_quantity_sold r1 = Some q1 /\ r_stock_remaining r1 = Some k1 /\
    r_quantity_sold r2 = Some q2 /\ r_stock_remaining r2 = Some k2 /\
    (q1 <= q2)%Q /\ (k1 <= k2)%Q.
Proof.
  intros Hs He H2.
  apply recalculate_row_some in H2 as (q2 & k2 & Hq2 & Hk2 & _ & Hq2' & Hk2' & _).
  unfold filter_stock_history in Hq2, Hk2.
  assert (Hw : forall en, in_window s1 e1 en = true -> in_window s2 e2 en = true)
    by (intros en; apply in_window_sub; assumption).
  destruct (sum_opt_filter_mono py_dec (in_window s1 e1) (in_window s2 e2) _ q2
              py_dec_nonneg Hw Hq2) as (q1 & Hq1 & Hle1).
  destruct (sum_opt_filter_mono py_inc (in_window s1 e1) (in_window s2 e2) _ k2
              py_inc_nonneg Hw Hk2) as (k1 & Hk1 & Hle2).
  unfold recalculate_row, filter_stock_history. rewrite Hq1, Hk1.
  eexists. exists q1, k1, q2, k2. repeat split; assumption.
Qed.

Lemma wider_window_larger_metrics_witness :
  exists r r2,
    rows_of [raw_with_bad_entry] = [r] /\
    recalculate_row day_0310 day_0401 r = Some r2 /\
    exists r1 q1 k1 q2 k2,
      recalculate_row day_0401 day_0401 r = Some r1 /\
      r_quantity_sold r1 = Some q1 /\ r_stock_remaining r1 = Some k1 /\
      r_quantity_sold r2 = Some q2 /\ r_stock_remaining r2 = Some k2 /\
      (q1 <= q2)%Q /\ (k1 <= k2)%Q.
Proof.
  do 2 eexists. split; [vm_compute; reflexivity|]. split; [vm_compute; reflexivity|].
  apply (wider_window_larger_metrics _ _ day_0401 day_0401 day_0310 day_0401).
  - vm_compute. discriminate.
  - vm_compute. discriminate.
  - vm_compute. reflexivity.
Defined.

(** ** Tiers assigned by the two classifiers *)

Lemma categorize_price_known p25 p75 x : known_tier (categorize_price p25 p75 (Some x)).
Proof.
  unfold known_tier, categorize_price.
  destruct (Qle_bool x p25); [|destruct (Qle_bool x p75)]; auto.
Qed.

Lemma clustering_segments_known df s :
  In s (clustering_segments df) -> known_tier s.
Proof.
  unfold clustering_segments, price_column.
  destruct (_ && _); intros H; apply in_map_iff in H as (x & <- & Hx).
  - apply in_map_iff in Hx as (r & <- & _). apply categorize_price_known.
  - unfold known_tier. auto.
Qed.

Lemma clustering_segments_lifetime df :
  clustering_segments (map set_lifetime_metrics df) = clustering_segments df.
Proof.
  unfold clustering_segments, price_column. rewrite !map_map, !length_map. reflexivity.
Qed.

(** [apply_clustering_improved] gives every row one of the three price
    tiers [Thấp], [Trung bình], [Cao]; it never leaves a row without a tier
    and never assigns [Không xác định]. *)
Theorem clustering_known_tiers (df : list row) :
  Forall (fun r => exists s, r_segment r = Some s /\ known_tier s)
         (apply_clustering_improved df).
Proof.
  apply Forall_forall. intros r.
  destruct df as [|r1 df1]; [contradiction|].
  unfold apply_clustering_improved. intros H.
  apply in_assign_segments in H as (r0 & s & Hin & ->).
  exists s. split; [reflexivity|].
  apply in_combine_r in Hin. eapply clustering_segments_known. exact Hin.
Qed.

(** When the frame has one row, or all its prices are equal, every row of
    [apply_clustering_improved] is [Trung bình]. *)
Theorem clustering_uniform_prices (df : list row) :
  (List.length df <= 1 \/ nunique (map r_price df) <= 1)%nat ->
  Forall (fun r => r_segment r = Some TrungBinh) (apply_clustering_improved df).
Proof.
  intros Hc. apply Forall_forall. intros r. destruct df as [|r1 df1]; [contradiction|].
  unfold apply_clustering_improved. intros H.
  apply in_assign_segments in H as (r0 & s & Hin & ->). simpl.
  apply in_combine_r in Hin. rewrite clustering_segments_lifetime in Hin.
  unfold clustering_segments in Hin.
  destruct (_ && _) eqn:E in Hin.
  - apply andb_true_iff in E as [E1 E2]. apply Nat.ltb_lt in E1, E2. lia.
  - apply in_map_iff in Hin as (x & <- & _). reflexivity.
Qed.

Lemma sortQ_In l z : In z (sortQ l) <-> In z l.
Proof.
  induction l as [|x l IH]; simpl; [tauto|]. rewrite insertQ_In, IH. tauto.
Qed.

Lemma lerp_at_zero (v : list Q) : (lerp_at v 0 == nth 0 v 0)%Q.
Proof.
  unfold lerp_at. change (Qfloor 0) with 0%Z. change (Z.to_nat 0) with O. ring.
Qed.

(** A value below every non-NaN value of a column is below each of its
    quantiles. *)
Lemma quantile_lower_bound (q : Q) (col : list (option Q)) (p x : Q) :
  (0 <= q <= 1)%Q -> quantile q col = Some p ->
  (forall y, In y (somes col) -> (x <= y)%Q) -> (x <= p)%Q.
Proof.
  intros Hq. unfold quantile. pose proof (sortQ_sorted (somes col)) as Hs.
  pose proof (fun z => proj1 (sortQ_In (somes col) z)) as Hin.
  destruct (sortQ (somes col)) as [|y t] eqn:E; [discriminate|].
  intros [= <-] Hx.
  assert (Hy : (x <= y)%Q) by (apply Hx, Hin; left; reflexivity).
  set (m := inject_Z (Z.of_nat (List.length (y :: t)) - 1)).
  assert (Hm : (0 <= m)%Q).
  { subst m. replace 0%Q with (inject_Z 0) by reflexivity.
    rewrite <- Zle_Qle. rewrite length_cons, Nat2Z.inj_succ. lia. }
  assert (Hle : (lerp_at (y :: t) 0 <= lerp_at (y :: t) (q * m))%Q).
  { apply lerp_at_mono; [exact Hs|discriminate|apply Qle_refl| |].
    - apply Qmult_le_0_compat; [apply Hq|exact Hm].
    - change (q * m <= m)%Q. rewrite <- (Qmult_1_l m) at 2.
      apply Qmult_le_compat_r; [apply Hq|exact Hm]. }
  rewrite lerp_at_zero in Hle. simpl in Hle. eapply Qle_trans; eassumption.
Qed.

Lemma somes_price_column df y :
  In y (somes (price_column df)) -> exists r, In r df /\ y = inject_Z (r_price r).
Proof.
  induction df as [|r df IH]; simpl; [contradiction|].
  intros [<-|H]; [eauto|]. destruct (IH H) as (r' & ? & ?). eauto.
Qed.

(** When the frame has at least two rows and two distinct prices, a row
    with the lowest price is [Thấp]: the 0.33 quantile is never below the
    minimum price. *)
Theorem clustering_cheapest_is_thap (df : list row) :
  (1 < List.length df)%nat -> (1 < nunique (map r_price df))%nat ->
  Forall (fun r => (forall r', In r' df -> r_price r <= r_price r') ->
                   r_segment r = Some Thap)
         (apply_clustering_improved df).
Proof.
  intros Hl Hu. apply Forall_forall. intros r. destruct df as [|r1 df1]; [simpl in Hl; lia|].
  unfold apply_clustering_improved. intros H Hmin.
  apply in_assign_segments in H as (r0 & s & Hin & ->). simpl in Hmin |- *.
  set (df := r1 :: df1) in *.
  rewrite clustering_segments_lifetime in Hin. unfold clustering_segments in Hin.
  apply Nat.ltb_lt in Hl, Hu. rewrite Hl, Hu in Hin. cbv beta iota in Hin.
  set (p25 := default 0%Q (quantile (33 # 100) (price_column df))) in Hin.
  set (p75 := default 0%Q (quantile (67 # 100) (price_column df))) in Hin.
  assert (E : price_column df
              = map (fun r => Some (inject_Z (r_price r))) (map set_lifetime_metrics df))
    by (unfold price_column; rewrite map_map; reflexivity).
  rewrite E in Hin. rewrite map_map in Hin.
  apply in_combine_map in Hin. subst s.
  assert (Hc : forallb is_none (price_column df) = false) by reflexivity.
  destruct (quantile_defined (33 # 100) (price_column df) Hc) as [p Hp].
  assert (Hle : (inject_Z (r_price r0) <= p)%Q).
  { eapply quantile_lower_bound; [|exact Hp|].
    - split; unfold Qle; simpl; lia.
    - intros y Hy. apply somes_price_column in Hy as (r' & Hr' & ->).
      rewrite <- Zle_Qle. apply Hmin. exact Hr'. }
  unfold p25. rewrite Hp. simpl. unfold categorize_price.
  apply Qle_bool_iff in Hle. rewrite Hle. reflexivity.
Qed.

Lemma classify_segment_known p25 p75 x : known_tier (classify_segment p25 p75 (Some x)).
Proof.
  unfold known_tier, classify_segment.
  destruct (Qle_bool x p25); [|destruct (Qle_bool x p75)]; auto.
Qed.

Lemma split_at_mid_known mid p : known_tier (split_at_mid mid p).
Proof.
  unfold known_tier, split_at_mid. destruct p as [x|]; [destruct (Qltb x mid)|]; auto.
Qed.

(** On a non-empty price column without NaN, [categorize_price_column]
    only produces the three price tiers. *)
Lemma categorize_price_column_known df s :
  df <> [] -> In s (categorize_price_column (price_column df)) -> known_tier s.
Proof.
  intros Hne. set (col := price_column df).
  assert (Hc : forallb is_none col = false)
    by (unfold col, price_column; destruct df; [congruence|reflexivity]).
  destruct (quantile_defined (1 # 4) col Hc) as [p25 E25].
  destruct (quantile_defined (3 # 4) col Hc) as [p75 E75].
  unfold categorize_price_column. rewrite Hc, E25, E75.
  destruct (Qeq_bool p25 p75); [destruct (Qeq_bool (col_min col) (col_max col))|];
    intros H; apply in_map_iff in H as (x & <- & Hx).
  - unfold known_tier. auto.
  - apply split_at_mid_known.
  - unfold col, price_column in Hx. apply in_map_iff in Hx as (r & <- & _).
    apply classify_segment_known.
Qed.

Lemma in_price_segment_known (df : list row) (r : row) :
  In r (categorize_price_segment df) ->
  exists s, r_segment r = Some s /\ known_tier s.
Proof.
  unfold categorize_price_segment. intros H.
  apply in_assign_segments in H as (r0 & s & Hin & ->).
  exists s. split; [reflexivity|].
  apply categorize_price_column_known with df.
  - destruct df; [contradiction|discriminate].
  - eapply in_combine_r. exact Hin.
Qed.

(** [categorize_price_segment] on a frame of rows (whose prices are never
    NaN) gives every row one of the three price tiers; [Không xác định]
    only arises from NaN prices. *)
Theorem price_segment_known_tiers (df : list row) :
  Forall (fun r => exists s, r_segment r = Some s /\ known_tier s)
         (categorize_price_segment df).
Proof. apply Forall_forall. apply in_price_segment_known. Qed.

Lemma clustering_uniform_prices_witness :
  (List.length two_equal_prices <= 1 \/ nunique (map r_price two_equal_prices) <= 1)%nat /\
  Forall (fun r => r_segment r = Some TrungBinh) (apply_clustering_improved two_equal_prices).
Proof.
  split; [right; vm_compute; lia|].
  apply clustering_uniform_prices. right. vm_compute. lia.
Defined.

Lemma clustering_cheapest_is_thap_witness :
  (1 < List.length three_products)%nat /\ (1 < nunique (map r_price three_products))%nat /\
  Forall (fun r => (forall r', In r' three_products -> r_price r <= r_price r') ->
                   r_segment r = Some Thap)
         (apply_clustering_improved three_products).
Proof.
  split; [vm_compute; lia|]. split; [vm_compute; lia|].
  apply clustering_cheapest_is_thap; vm_compute; lia.
Defined.

(** ** Rollup totals *)

Open Scope Q_scope.

Lemma Qsum_groups_all_keys (g : row -> Q) (df : list row) :
  (forall r, In r df -> r_segment r <> None) ->
  Qsum (map (fun k => Qsum (map g (group_rows k df))) segment_key_order)
    == Qsum (map g df).
Proof.
  unfold group_rows. induction df as [|r df IH]; intros Hs; simpl; [reflexivity|].
  assert (IH' := IH (fun r' H => Hs r' (or_intror H))). simpl in IH'.
  assert (Hh : forall k, has_segment k r
                         = match r_segment r with Some s => segment_eqb s k | None => false end)
    by reflexivity.
  rewrite !Hh.
  destruct (r_segment r) as [[]|] eqn:E; [| | | |exfalso; exact (Hs r (or_introl eq_refl) E)];
    simpl; lra.
Qed.

Lemma Qsum_present_keys (g : row -> Q) (df : list row) :
  Qsum (map (fun k => Qsum (map g (group_rows k df)))
            (filter (fun k => existsb (has_segment k) df) segment_key_order))
  == Qsum (map (fun k => Qsum (map g (group_rows k df))) segment_key_order).
Proof.
  assert (H0 : forall k, existsb (has_segment k) df = false -> group_rows k df = []).
  { intros k Hk. unfold group_rows. apply filter_all_false. intros x Hx.
    destruct (has_segment k x) eqn:E; [|reflexivity].
    assert (existsb (has_segment k) df = true) by (apply existsb_exists; eauto). congruence. }
  induction segment_key_order as [|k ks IH]; simpl; [reflexivity|].
  destruct (existsb (has_segment k) df) eqn:E; simpl; rewrite IH; [reflexivity|].
  rewrite (H0 k E). simpl. lra.
Qed.

(** When every row carries a tier, the rollup's [revenue] and
    [quantity_sold] columns add up to the frame's totals in the display
    mode: the tiers partition the frame. *)
Theorem rollup_totals_match_frame (df : list row) (m : display_mode) :
  (forall r, In r df -> r_segment r <> None) ->
  Qsum (map s_revenue (calculate_segment_analysis df m)) == Qsum (map (mode_revenue m) df) /\
  Qsum (map s_quantity_sold (calculate_segment_analysis df m))
    == Qsum (map (mode_quantity m) df).
Proof.
  intros Hs. destruct df as [|r0 df0]; [split; reflexivity|].
  unfold calculate_segment_analysis, segment_groups. rewrite !map_map.
  rewrite <- (Qsum_groups_all_keys (mode_revenue m) _ Hs),
          <- (Qsum_groups_all_keys (mode_quantity m) _ Hs),
          <- !Qsum_present_keys.
  split; reflexivity.
Qed.

Close Scope Q_scope.

Lemma rollup_totals_match_frame_witness :
  (forall r, In r (apply_clustering_improved two_stocked_products) -> r_segment r <> None) /\
  (Qsum (map s_revenue (calculate_segment_analysis
                          (apply_clustering_improved two_stocked_products) BanHang))
    == Qsum (map (mode_revenue BanHang) (apply_clustering_improved two_stocked_products)))%Q /\
  (Qsum (map s_quantity_sold (calculate_segment_analysis
                                (apply_clustering_improved two_stocked_products) BanHang))
    == Qsum (map (mode_quantity BanHang) (apply_clustering_improved two_stocked_products)))%Q.
Proof.
  assert (H : forall r, In r (apply_clustering_improved two_stocked_products) ->
                        r_segment r <> None).
  { intros r Hr. vm_compute in Hr.
    repeat (destruct Hr as [<-|Hr]; [intro H; discriminate H|]). contradiction. }
  split; [exact H|]. apply rollup_totals_match_frame. exact H.
Defined.

(** ** The rows the dashboard shows *)

(** Every row handed to the segment rollup matches the category and
    product chosen in the sidebar and has one of the three price tiers;
    when the date filter's recomputation succeeds, each row also keeps
    only movements inside the date window (on the fallback path the rows
    keep their whole stored history). *)
Theorem dashboard_rows_respect_selection (df : list row) (sel : selection)
  (start_date end_date : date) :
  Forall (fun r =>
    (forall c, sel_category sel = Some c -> r_category r = c) /\
    (forall n, sel_product sel = Some n -> r_name r = n) /\
    exists s, r_segment r = Some s /\ known_tier s)
    (dashboard_filtered_df df sel start_date end_date) /\
  (window_recomputes (dashboard_selected df sel) start_date end_date = true ->
   Forall (fun r => forall en, In en (r_stock_history r) ->
                               in_window start_date end_date en = true)
     (dashboard_filtered_df df sel start_date end_date)).
Proof.
  split.
  - apply Forall_forall. intros r H. pose proof H as Hk.
    unfold dashboard_filtered_df, categorize_price_segment in H.
    apply in_assign_segments in H as (r1 & s & Hin & ->).
    apply in_combine_l in Hin.
    pose proof (filter_by_date_Forall2
                  (fun x y => r_category y = r_category x /\ r_name y = r_name x)
                  (dashboard_selected df sel) start_date end_date
                  (fun x => conj eq_refl eq_refl)) as HF.
    destruct (Forall2_In_r _ _ _ _
                (HF ltac:(intros x y Hxy; apply recalculate_row_some in Hxy;
                          destruct Hxy as (q & k & _ & _ & _ & _ & _ & _ & _ & _ & Hn & Hc & _);
                          split; assumption)) Hin) as (r2 & Hr2 & Hc & Hn).
    apply in_dashboard_selected in Hr2 as (_ & Hcat & _ & Hname).
    split; [intros c Ec; simpl; rewrite Hc; apply Hcat; exact Ec|].
    split; [intros n En; simpl; rewrite Hn; apply Hname; exact En|].
    unfold dashboard_filtered_df in Hk. apply in_price_segment_known in Hk. exact Hk.
  - intros Hw. apply Forall_forall. intros r H.
    unfold dashboard_filtered_df, categorize_price_segment in H.
    apply in_assign_segments in H as (r1 & s & Hin & ->).
    apply in_combine_l in Hin.
    apply window_recomputes_filter in Hw. apply map_opt_Forall2 in Hw.
    destruct (Forall2_In_r _ _ _ _ Hw Hin) as (r2 & _ & Hrec).
    apply recalculate_row_some in Hrec as (q & k & _ & _ & Hh & _).
    intros en Hen. simpl in Hen. rewrite Hh in Hen.
    unfold filter_stock_history in Hen. apply filter_In in Hen. apply Hen.
Qed.

(** ** The daily chart *)

Open Scope Q_scope.

Lemma Qsum_flat_map {A B} (g : B -> Q) (h : A -> list B) (l : list A) :
  Qsum (map g (flat_map h l)) == Qsum (map (fun x => Qsum (map g (h x))) l).
Proof.
  induction l as [|x l IH]; simpl; [reflexivity|].
  rewrite map_app, Qsum_app, IH. reflexivity.
Qed.

Lemma daily_points_sums s e r q k :
  sum_opt (map py_dec (filter_stock_history s e (r_stock_history r))) = Some q ->
  sum_opt (map py_inc (filter_stock_history s e (r_stock_history r))) = Some k ->
  Qsum (map dp_quantity_sold (daily_points_of_row s e r)) == q /\
  Qsum (map dp_stock_remaining (daily_points_of_row s e r)) == k.
Proof.
  unfold daily_points_of_row, filter_stock_history.
  revert q k. induction (r_stock_history r) as [|en h IH]; intros q k.
  { simpl. intros [= <-] [= <-]. split; reflexivity. }
  cbn [flat_map filter].
  assert (Hw : in_window s e en = match entry_date en with
                                  | Some d => date_leb s d && date_leb d e
                                  | None => false end) by reflexivity.
  rewrite Hw. destruct (entry_date en) as [d|]; [|exact (IH q k)].
  destruct (date_leb s d && date_leb d e); [|exact (IH q k)].
  simpl. destruct (py_dec en) as [x|]; [|discriminate].
  destruct (py_inc en) as [y|]; [|destruct (sum_opt (map py_dec _)); discriminate].
  destruct (sum_opt (map py_dec (filter (in_window s e) h))) as [t|]; [|discriminate].
  destruct (sum_opt (map py_inc (filter (in_window s e) h))) as [u|]; [|discriminate].
  intros [= <-] [= <-]. destruct (IH t u eq_refl eq_refl) as [H1 H2].
  simpl. rewrite H1, H2. split; reflexivity.
Qed.

Lemma daily_points_name s e r p :
  In p (daily_points_of_row s e r) -> dp_name p = r_name r.
Proof.
  unfold daily_points_of_row. intros H. apply in_flat_map in H as (en & _ & H).
  destruct (entry_date en); [|contradiction].
  destruct (_ && _); [|contradiction].
  destruct (py_dec en), (py_inc en); try contradiction.
  destruct H as [<-|[]]. reflexivity.
Qed.

Lemma filter_stock_history_idem s e h :
  filter_stock_history s e (filter_stock_history s e h) = filter_stock_history s e h.
Proof.
  unfold filter_stock_history. rewrite filter_filter_andb.
  apply filter_ext. intros en. apply andb_diag.
Qed.

Close Scope Q_scope.

(** When the date filter's recomputation succeeds, the points of the
    daily chart add up to the KPI totals of the date-filtered frame:
    [sum(daily_df['quantity_sold'])] equals [total_quantity] and
    [sum(daily_df['stock_remaining'])] equals [total_stock], also when a
    product is selected. *)
Theorem daily_chart_matches_kpi (df : list row) (sel : selection)
  (start_date end_date : date) :
  window_recomputes (dashboard_selected df sel) start_date end_date = true ->
  (Qsum (map dp_quantity_sold
     (daily_df (filter_by_date_range_optimized (dashboard_selected df sel) start_date end_date)
               sel start_date end_date))
   == kpi_total_quantity
        (filter_by_date_range_optimized (dashboard_selected df sel) start_date end_date))%Q /\
  (Qsum (map dp_stock_remaining
     (daily_df (filter_by_date_range_optimized (dashboard_selected df sel) start_date end_date)
               sel start_date end_date))
   == kpi_total_stock
        (filter_by_date_range_optimized (dashboard_selected df sel) start_date end_date))%Q.
Proof.
  intros Hw. apply window_recomputes_filter, map_opt_Forall2 in Hw.
  set (f := filter_by_date_range_optimized (dashboard_selected df sel) start_date end_date)
    in *.
  assert (Hrow : forall r', In r' f -> exists r, In r (dashboard_selected df sel) /\
                   recalculate_row start_date end_date r = Some r').
  { intros r' Hr'. exact (Forall2_In_r _ _ _ _ Hw Hr'). }
  assert (Hpts : daily_df f sel start_date end_date
                 = flat_map (daily_points_of_row start_date end_date) f).
  { unfold daily_df. destruct (sel_product sel) as [n|] eqn:En; [|reflexivity].
    apply filter_all_true. intros p Hp. apply in_flat_map in Hp as (r' & Hr' & Hp).
    rewrite (daily_points_name _ _ _ _ Hp). apply String.eqb_eq.
    destruct (Hrow r' Hr') as (r & Hr & Hrec).
    apply recalculate_row_some in Hrec
      as (q & k & _ & _ & _ & _ & _ & _ & _ & _ & Hn & _).
    rewrite Hn. apply in_dashboard_selected in Hr as (_ & _ & _ & Hname).
    apply Hname. exact En. }
  assert (Hsum : forall r', In r' f ->
            (Qsum (map dp_quantity_sold (daily_points_of_row start_date end_date r'))
             == default 0 (r_quantity_sold r'))%Q /\
            (Qsum (map dp_stock_remaining (daily_points_of_row start_date end_date r'))
             == default 0 (r_stock_remaining r'))%Q).
  { intros r' Hr'. destruct (Hrow r' Hr') as (r & _ & Hrec).
    apply recalculate_row_some in Hrec as (q & k & Hq & Hk & Hh & Hq' & Hk' & _).
    rewrite Hq', Hk'. simpl. apply daily_points_sums;
      rewrite Hh, filter_stock_history_idem; assumption. }
  rewrite Hpts, !Qsum_flat_map. unfold kpi_total_quantity, kpi_total_stock.
  split; apply Qsum_map_ext; intros r' Hr'; apply (Hsum r' Hr').
Qed.

Lemma daily_chart_matches_kpi_witness :
  window_recomputes (dashboard_selected two_stocked_products select_all) day_0310 day_0401
    = true /\
  (Qsum (map dp_quantity_sold
     (daily_df (filter_by_date_range_optimized
                  (dashboard_selected two_stocked_products select_all) day_0310 day_0401)
               select_all day_0310 day_0401))
   == kpi_total_quantity
        (filter_by_date_range_optimized
           (dashboard_selected two_stocked_products select_all) day_0310 day_0401))%Q /\
  (Qsum (map dp_stock_remaining
     (daily_df (filter_by_date_range_optimized
                  (dashboard_selected two_stocked_products select_all) day_0310 day_0401)
               select_all day_0310 day_0401))
   == kpi_total_stock
        (filter_by_date_range_optimized
           (dashboard_selected two_stocked_products select_all) day_0310 day_0401))%Q.
Proof.
  split; [vm_compute; reflexivity|].
  apply daily_chart_matches_kpi. vm_compute. reflexivity.
Defined.

Lemma insert_date_perm d l : Permutation (insert_date d l) (d :: l).
Proof.
  induction l as [|x l IH]; simpl; [reflexivity|].
  destruct (date_leb d x); [reflexivity|].
  rewrite IH. apply perm_swap.
Qed.

Lemma sort_dates_perm l : Permutation (sort_dates l) l.
Proof.
  induction l as [|x l IH]; simpl; [reflexivity|].
  rewrite insert_date_perm, IH. reflexivity.
Qed.

Lemma date_eqb_spec a b : date_eqb a b = true <-> a = b.
Proof. unfold date_eqb. destruct (date_eq_dec a b); split; congruence. Qed.

Open Scope Q_scope.

Lemma Qsum_zeros {A} (K : list A) : Qsum (map (fun _ => 0) K) == 0.
Proof. induction K as [|k K IH]; simpl; [reflexivity|]. rewrite IH. reflexivity. Qed.

Lemma Qsum_single_key (K : list date) (x : date) (c : Q) :
  NoDup K -> In x K -> Qsum (map (fun d => if date_eqb x d then c else 0) K) == c.
Proof.
  induction 1 as [|k K Hk Hnd IH]; [contradiction|]. intros Hx. simpl.
  destruct (date_eqb x k) eqn:E.
  - apply date_eqb_spec in E. subst k.
    rewrite (map_ext_in _ (fun _ => 0)); [|intros d Hd; destruct (date_eqb x d) eqn:E';
      [apply date_eqb_spec in E'; subst; contradiction | reflexivity]].
    rewrite Qsum_zeros. lra.
  - destruct Hx as [Hkx|Hx]; [|rewrite IH by exact Hx; lra].
    subst k. assert (date_eqb x x = true) by (apply date_eqb_spec; reflexivity). congruence.
Qed.

Lemma Qsum_partition_dates (g : daily_point -> Q) (K : list date) (pts : list daily_point) :
  NoDup K -> (forall p, In p pts -> In (dp_date p) K) ->
  Qsum (map (fun d => Qsum (map g (filter (fun p => date_eqb (dp_date p) d) pts))) K)
    == Qsum (map g pts).
Proof.
  intros Hnd. induction pts as [|p pts IH]; intros Hin; simpl.
  - apply Qsum_zeros.
  - rewrite <- IH by (intros q Hq; apply Hin; right; exact Hq).
    rewrite <- (Qsum_single_key K (dp_date p) (g p) Hnd (Hin p (or_introl eq_refl))) at 1.
    clear. induction K as [|k K IHK]; simpl; [lra|].
    destruct (date_eqb (dp_date p) k); simpl; rewrite IHK; lra.
Qed.

Close Scope Q_scope.

(** [groupby('date')] keeps every point: the per-day sums of the chart
    add up to the sum over all points, for [quantity_sold] and for
    [stock_remaining], and each date of a point is a key of the chart. *)
Theorem daily_aggregation_preserves_totals (pts : list daily_point) :
  (Qsum (map snd (daily_agg_quantity pts)) == Qsum (map dp_quantity_sold pts))%Q /\
  (Qsum (map snd (daily_agg_stock pts)) == Qsum (map dp_stock_remaining pts))%Q /\
  NoDup (daily_keys pts) /\
  (forall p, In p pts -> In (dp_date p) (daily_keys pts)).
Proof.
  assert (Hnd : NoDup (daily_keys pts)).
  { unfold daily_keys. eapply Permutation_NoDup; [symmetry; apply sort_dates_perm|].
    apply NoDup_nodup. }
  assert (Hin : forall p, In p pts -> In (dp_date p) (daily_keys pts)).
  { intros p Hp. unfold daily_keys. eapply Permutation_in; [symmetry; apply sort_dates_perm|].
    apply nodup_In. apply in_map. exact Hp. }
  unfold daily_agg_quantity, daily_agg_stock. rewrite !map_map. cbn [snd].
  split; [apply Qsum_partition_dates; assumption|].
  split; [apply Qsum_partition_dates; assumption|]. auto.
Qed.

(** ** KPI cards *)

Lemma Qsum_bounds (l : list Q) (lo hi : Q) :
  (forall x, In x l -> (lo <= x <= hi)%Q) ->
  (inject_Z (Z.of_nat (List.length l)) * lo <= Qsum l <=
   inject_Z (Z.of_nat (List.length l)) * hi)%Q.
Proof.
  induction l as [|x l IH]; intros H; [simpl; split; unfold Qle; simpl; lia|].
  change (List.length (x :: l)) with (S (List.length l)).
  change (Qsum (x :: l)) with (x + Qsum l)%Q.
  destruct (IH (fun y Hy => H y (or_intror Hy))) as [IH1 IH2].
  destruct (H x (or_introl eq_refl)) as [H1 H2].
  rewrite Nat2Z.inj_succ, <- Z.add_1_r, inject_Z_plus. change (inject_Z 1) with 1%Q.
  split; lra.
Qed.

(** The average-price card lies between any bounds of the prices it
    averages: when some row is counted ([quantity_sold > 0] in
    'Bán hàng', [stock_revenue > 0] in 'Tồn kho'), [avg_price] is the mean
    of their prices. *)
Theorem avg_price_within_bounds (m : display_mode) (df : list row) (lo hi : Z) :
  kpi_priced_rows m df <> [] ->
  (forall r, In r (kpi_priced_rows m df) -> lo <= r_price r <= hi) ->
  (inject_Z lo <= kpi_avg_price m df <= inject_Z hi)%Q.
Proof.
  intros Hne Hb. unfold kpi_avg_price.
  destruct df as [|r0 df0]; [destruct m; contradiction|].
  destruct (kpi_priced_rows m (r0 :: df0)) as [|x l] eqn:E; [contradiction|].
  unfold qmean. set (ps := map (fun r => inject_Z (r_price r)) (x :: l)).
  assert (Hn : (0 < inject_Z (Z.of_nat (List.length ps)))%Q).
  { unfold ps. rewrite length_map. simpl. unfold Qlt. simpl. lia. }
  destruct (Qsum_bounds ps (inject_Z lo) (inject_Z hi)) as [B1 B2].
  { intros y Hy. unfold ps in Hy. apply in_map_iff in Hy as (r & <- & Hr).
    destruct (Hb r Hr). split; rewrite <- Zle_Qle; lia. }
  split.
  - apply Qle_shift_div_l; [exact Hn|]. rewrite Qmult_comm. exact B1.
  - apply Qle_shift_div_r; [exact Hn|]. rewrite Qmult_comm. exact B2.
Qed.

Lemma avg_price_within_bounds_witness :
  kpi_priced_rows TonKho two_stocked_products <> [] /\
  (forall r, In r (kpi_priced_rows TonKho two_stocked_products) -> 1000 <= r_price r <= 3000) /\
  (inject_Z 1000 <= kpi_avg_price TonKho two_stocked_products <= inject_Z 3000)%Q.
Proof.
  assert (Hb : forall r, In r (kpi_priced_rows TonKho two_stocked_products) ->
                         1000 <= r_price r <= 3000).
  { intros r Hr. vm_compute in Hr.
    repeat (destruct Hr as [<-|Hr]; [simpl; lia|]). contradiction. }
  assert (Hn : kpi_priced_rows TonKho two_stocked_products <> [])
    by (vm_compute; intro H; discriminate H).
  split; [exact Hn|]. split; [exact Hb|].
  apply avg_price_within_bounds; [exact Hn|exact Hb].
Defined.

Lemma idxmax_fold_spec {A} (f : A -> Q) (l : list A) (b : A) :
  exists b', fold_left (idxmax_step f) l (Some b) = Some b' /\
  ((b' = b /\ forall x, In x l -> (f x <= f b)%Q) \/
   (exists l1 l2, l = l1 ++ b' :: l2 /\ (f b < f b')%Q /\
      (forall x, In x l1 -> (f x < f b')%Q) /\ (forall x, In x l2 -> (f x <= f b')%Q))).
Proof.
  revert b. induction l as [|x l IH]; intros b; simpl.
  - exists b. split; [reflexivity|]. left. split; [reflexivity|contradiction].
  - destruct (Qltb (f b) (f x)) eqn:Ec.
    + apply Qltb_iff in Ec.
      destruct (IH x) as (b' & Hf & Hc). exists b'. split; [exact Hf|]. right.
      destruct Hc as [[Hb Hall]|(l1 & l2 & -> & Hxb & H1 & H2)].
      * subst b'. exists [], l. repeat split; auto. contradiction.
      * exists (x :: l1), l2. repeat split; [lra| |exact H2].
        intros y [<-|Hy]; [exact Hxb|auto].
    + apply Qltb_false in Ec.
      destruct (IH b) as (b' & Hf & Hc). exists b'. split; [exact Hf|].
      destruct Hc as [[Hb Hall]|(l1 & l2 & -> & Hbb & H1 & H2)].
      * left. split; [exact Hb|]. subst b'. intros y [<-|Hy]; [exact Ec|auto].
      * right. exists (x :: l1), l2. repeat split; [exact Hbb| |exact H2].
        intros y [<-|Hy]; [lra|auto].
Qed.

(** [idxmax] picks the first element holding the largest value. *)
Lemma idxmax_first_max {A} (f : A -> Q) (df : list A) :
  df <> [] ->
  exists l1 r l2, df = l1 ++ r :: l2 /\ idxmax f df = Some r /\
    (forall x, In x l1 -> (f x < f r)%Q) /\ (forall x, In x l2 -> (f x <= f r)%Q).
Proof.
  destruct df as [|x l]; [congruence|]. intros _.
  unfold idxmax. simpl.
  destruct (idxmax_fold_spec f l x) as (b' & Hf & Hc).
  destruct Hc as [[Hb Hall]|(l1 & l2 & -> & Hxb & H1 & H2)].
  - subst b'. exists [], x, l. repeat split; auto. contradiction.
  - exists (x :: l1), b', l2. repeat split; auto. intros y [<-|Hy]; [exact Hxb|auto].
Qed.

(** The top-product card shows "N/A" when the ranked column sums to at
    most 0; otherwise it shows the name of the first row holding the
    largest [quantity_sold] ('Bán hàng') or [stock_remaining]
    ('Tồn kho'): every row before it has a smaller value and none after
    it a larger one. *)
Theorem top_product_first_maximum (m : display_mode) (df : list row) :
  ((Qsum (map (kpi_value m) df) <= 0)%Q -> kpi_top_product m df = "N/A"%string) /\
  ((0 < Qsum (map (kpi_value m) df))%Q ->
   exists l1 r l2, df = l1 ++ r :: l2 /\ kpi_top_product m df = r_name r /\
     (forall x, In x l1 -> (kpi_value m x < kpi_value m r)%Q) /\
     (forall x, In x l2 -> (kpi_value m x <= kpi_value m r)%Q)).
Proof.
  split; intros H.
  - unfold kpi_top_product. destruct df; [reflexivity|].
    apply Qltb_false in H. rewrite H. reflexivity.
  - assert (Hne : df <> []) by (intros ->; simpl in H; lra).
    destruct (idxmax_first_max (kpi_value m) df Hne) as (l1 & r & l2 & Hdf & Hi & H1 & H2).
    exists l1, r, l2. repeat split; auto.
    unfold kpi_top_product. destruct df; [congruence|].
    apply Qltb_iff in H. rewrite H. unfold idxmax_row. rewrite Hi. reflexivity.
Qed.

(** ** The leading tier under the pie charts *)

Lemma Qsum_le_length_max {A} (f : A -> Q) (l : list A) (M : Q) :
  (forall x, In x l -> (f x <= M)%Q) ->
  (Qsum (map f l) <= inject_Z (Z.of_nat (List.length l)) * M)%Q.
Proof.
  induction l as [|x l IH]; intros H; [simpl; change (inject_Z 0) with 0%Q; lra|].
  specialize (IH (fun y Hy => H y (or_intror Hy))). specialize (H x (or_introl eq_refl)).
  change (Qsum (map f (x :: l))) with (f x + Qsum (map f l))%Q.
  rewrite length_cons, Nat2Z.inj_succ, <- Z.add_1_r, inject_Z_plus.
  change (inject_Z 1) with 1%Q. lra.
Qed.

Lemma pct_quarter (x T : Q) : (0 < T)%Q -> (T <= 4 * x)%Q -> (25 <= pct x T)%Q.
Proof.
  intros HT Hx. unfold pct. apply Qltb_iff in HT as HT'. rewrite HT'.
  setoid_replace (x / T * 100)%Q with ((x * 100) / T)%Q
    by (field; intros E; rewrite E in HT; discriminate HT).
  apply Qle_shift_div_l; [exact HT|]. lra.
Qed.

Lemma top_segment_share (f : segment_stat -> Q) (p : segment_stat -> Q)
  (sa : list segment_stat) :
  (List.length sa <= 4)%nat ->
  (forall st, In st sa -> p st = pct (f st) (Qsum (map f sa))) ->
  (0 < Qsum (map f sa))%Q ->
  exists st, top_segment f sa = Some st /\ In st sa /\
    (forall st', In st' sa -> (f st' <= f st)%Q) /\ (25 <= p st)%Q.
Proof.
  intros Hl Hp HT.
  assert (Hne : sa <> []) by (intros ->; simpl in HT; lra).
  destruct (idxmax_first_max f sa Hne) as (l1 & st & l2 & Hsa & Hi & H1 & H2).
  assert (Hin : In st sa) by (rewrite Hsa; apply in_or_app; right; left; reflexivity).
  assert (Hmax : forall st', In st' sa -> (f st' <= f st)%Q).
  { intros st' H. rewrite Hsa in H. apply in_app_or in H as [H|[<-|H]].
    - specialize (H1 st' H). lra.
    - lra.
    - apply H2. exact H. }
  exists st. split; [unfold top_segment; apply Qltb_iff in HT; rewrite HT; exact Hi|].
  split; [exact Hin|]. split; [exact Hmax|].
  rewrite (Hp st Hin). apply pct_quarter; [exact HT|].
  pose proof (Qsum_le_length_max f sa (f st) Hmax) as Hs.
  assert (Hfs : (0 <= f st)%Q).
  { destruct (Qlt_le_dec (f st) 0) as [Hn|Hn]; [|exact Hn].
    assert (Hz : (0 <= inject_Z (Z.of_nat (List.length sa)))%Q)
      by (change 0%Q with (inject_Z 0); rewrite <- Zle_Qle; lia).
    assert (inject_Z (Z.of_nat (List.length sa)) * f st <= 0)%Q.
    { setoid_replace (inject_Z (Z.of_nat (List.length sa)) * f st)%Q
        with (- (inject_Z (Z.of_nat (List.length sa)) * (- f st)))%Q by ring.
      assert (0 <= inject_Z (Z.of_nat (List.length sa)) * (- f st))%Q
        by (apply Qmult_le_0_compat; lra). lra. }
    lra. }
  assert (Hl4 : (inject_Z (Z.of_nat (List.length sa)) <= 4)%Q)
    by (change 4%Q with (inject_Z 4); rewrite <- Zle_Qle; lia).
  assert (inject_Z (Z.of_nat (List.length sa)) * f st <= 4 * f st)%Q
    by (apply Qmult_le_compat_r; assumption).
  lra.
Qed.

Lemma calculate_segment_analysis_shape df m :
  let sa := calculate_segment_analysis df m in
  (List.length sa <= 4)%nat /\
  (forall st, In st sa -> s_revenue_pct st = pct (s_revenue st) (Qsum (map s_revenue sa)) /\
                          s_quantity_pct st = pct (s_quantity_sold st)
                                                  (Qsum (map s_quantity_sold sa))).
Proof.
  intros sa. unfold sa. destruct df as [|r0 df0]; [split; [simpl; lia|contradiction]|].
  unfold calculate_segment_analysis. split.
  - rewrite length_map. unfold segment_groups. rewrite length_map.
    etransitivity; [apply filter_length_le|]. simpl. lia.
  - intros st Hst. rewrite !map_map.
    apply in_map_iff in Hst as ([[k r] q] & <- & Hin). simpl.
    split; f_equal; f_equal; apply map_ext; intros [[? ?] ?]; reflexivity.
Qed.

(** When the rollup's [revenue] (resp. [quantity_sold]) column sums to
    more than 0, the leading tier shown under the pie chart is a rollup row
    holding the largest value, and its percentage is at least 25%: there
    are at most four tiers. *)
Theorem top_segment_leads (df : list row) (m : display_mode) :
  let sa := calculate_segment_analysis df m in
  ((0 < Qsum (map s_revenue sa))%Q ->
   exists st, top_segment s_revenue sa = Some st /\ In st sa /\
     (forall st', In st' sa -> (s_revenue st' <= s_revenue st)%Q) /\
     (25 <= s_revenue_pct st)%Q) /\
  ((0 < Qsum (map s_quantity_sold sa))%Q ->
   exists st, top_segment s_quantity_sold sa = Some st /\ In st sa /\
     (forall st', In st' sa -> (s_quantity_sold st' <= s_quantity_sold st)%Q) /\
     (25 <= s_quantity_pct st)%Q).
Proof.
  intros sa. destruct (calculate_segment_analysis_shape df m) as [Hl Hp]. fold sa in Hl, Hp.
  split; intros HT; apply top_segment_share; auto; intros st Hst; apply (Hp st Hst).
Qed.

(** ** Tiers follow prices *)

Lemma categorize_price_mono p25 p75 x y :
  (x <= y)%Q ->
  tier_rank (Some (categorize_price p25 p75 (Some x)))
    <= tier_rank (Some (categorize_price p25 p75 (Some y))).
Proof.
  intros Hxy. unfold categorize_price.
  destruct (Qle_bool x p25) eqn:E1, (Qle_bool x p75) eqn:E2,
           (Qle_bool y p25) eqn:E3, (Qle_bool y p75) eqn:E4;
    simpl; try lia; qle_bool_cases; lra.
Qed.

Lemma classify_segment_mono p25 p75 x y :
  (x <= y)%Q ->
  tier_rank (Some (classify_segment p25 p75 (Some x)))
    <= tier_rank (Some (classify_segment p25 p75 (Some y))).
Proof. apply categorize_price_mono. Qed.

Lemma split_at_mid_mono mid x y :
  (x <= y)%Q ->
  tier_rank (Some (split_at_mid mid (Some x))) <= tier_rank (Some (split_at_mid mid (Some y))).
Proof.
  intros Hxy. unfold split_at_mid, Qltb.
  destruct (Qle_bool mid x) eqn:E1, (Qle_bool mid y) eqn:E2; simpl; try lia.
  qle_bool_cases. lra.
Qed.

Lemma tiers_monotone_of (out : list row) (g : Z -> segment) :
  (forall x y, x <= y -> tier_rank (Some (g x)) <= tier_rank (Some (g y))) ->
  (forall r, In r out -> r_segment r = Some (g (r_price r))) ->
  Forall (fun r1 => Forall (fun r2 =>
            r_price r1 <= r_price r2 -> tier_rank (r_segment r1) <= tier_rank (r_segment r2))
          out) out.
Proof.
  intros Hg Hout. apply Forall_forall. intros r1 H1. apply Forall_forall. intros r2 H2 Hp.
  rewrite (Hout r1 H1), (Hout r2 H2). apply Hg. exact Hp.
Qed.

Lemma assign_segments_fun df (g : Z -> segment) :
  forall r, In r (assign_segments df (map (fun r0 => g (r_price r0)) df)) ->
  r_segment r = Some (g (r_price r)).
Proof.
  intros r H. apply in_assign_segments in H as (r0 & s & Hin & ->).
  apply in_combine_map in Hin. subst s. reflexivity.
Qed.

(** In [apply_clustering_improved], a row never gets a lower tier than a
    cheaper row: the tier order [Thấp] < [Trung bình] < [Cao] follows the
    price order. *)
Theorem clustering_tiers_follow_prices (df : list row) :
  let out := apply_clustering_improved df in
  Forall (fun r1 => Forall (fun r2 =>
            r_price r1 <= r_price r2 -> tier_rank (r_segment r1) <= tier_rank (r_segment r2))
          out) out.
Proof.
  intros out. unfold out. destruct df as [|r1 df1]; [constructor|].
  unfold apply_clustering_improved. set (df := r1 :: df1).
  rewrite clustering_segments_lifetime. unfold clustering_segments.
  destruct (_ && _).
  - set (p25 := default 0%Q (quantile (33 # 100) (price_column df))).
    set (p75 := default 0%Q (quantile (67 # 100) (price_column df))).
    apply tiers_monotone_of with (g := fun x => categorize_price p25 p75 (Some (inject_Z x))).
    + intros x y Hxy. apply categorize_price_mono. rewrite <- Zle_Qle. exact Hxy.
    + intros r Hr. apply assign_segments_fun with (df := map set_lifetime_metrics df)
        (g := fun x => categorize_price p25 p75 (Some (inject_Z x))).
      replace (map (fun r0 => categorize_price p25 p75 (Some (inject_Z (r_price r0))))
                   (map set_lifetime_metrics df))
        with (map (categorize_price p25 p75) (price_column df))
        by (unfold price_column; rewrite !map_map; reflexivity).
      exact Hr.
  - apply tiers_monotone_of with (g := fun _ => TrungBinh); [intros; lia|].
    intros r Hr. apply assign_segments_fun with (df := map set_lifetime_metrics df)
      (g := fun _ => TrungBinh).
    rewrite map_map. exact Hr.
Qed.

Lemma categorize_price_column_fun df :
  exists h : option Q -> segment,
    (forall x y, (x <= y)%Q -> tier_rank (Some (h (Some x))) <= tier_rank (Some (h (Some y)))) /\
    categorize_price_column (price_column df) = map h (price_column df).
Proof.
  unfold categorize_price_column.
  destruct (forallb is_none (price_column df)).
  { exists (fun _ => KhongXacDinh). split; [intros; lia|reflexivity]. }
  destruct (quantile (1 # 4) (price_column df)) as [p25|], (quantile (3 # 4) (price_column df)) as [p75|];
    try (exists (fun _ => KhongXacDinh); split; [intros; lia|reflexivity]).
  destruct (Qeq_bool p25 p75).
  - destruct (Qeq_bool (col_min (price_column df)) (col_max (price_column df))).
    + exists (fun _ => TrungBinh). split; [intros; lia|reflexivity].
    + eexists. split; [intros x y; apply split_at_mid_mono|reflexivity].
  - eexists. split; [intros x y; apply classify_segment_mono|reflexivity].
Qed.

(** The same holds for the tiers of [categorize_price_segment], in each
    of its branches (quartiles, midpoint split, single price). *)
Theorem price_segment_tiers_follow_prices (df : list row) :
  let out := categorize_price_segment df in
  Forall (fun r1 => Forall (fun r2 =>
            r_price r1 <= r_price r2 -> tier_rank (r_segment r1) <= tier_rank (r_segment r2))
          out) out.
Proof.
  intros out. unfold out, categorize_price_segment.
  destruct (categorize_price_column_fun df) as (h & Hh & ->).
  apply tiers_monotone_of with (g := fun x => h (Some (inject_Z x))).
  - intros x y Hxy. apply Hh. rewrite <- Zle_Qle. exact Hxy.
  - unfold price_column. rewrite map_map.
    apply assign_segments_fun with (df := df) (g := fun x => h (Some (inject_Z x))).
Qed.


(** ** [format_number] *)

Lemma Qfloor_unique (k : Z) (y : Q) :
  (inject_Z k <= y)%Q -> (y < inject_Z (k + 1))%Q -> Qfloor y = k.
Proof.
  intros H1 H2. pose proof (Qfloor_le y) as H3. pose proof (Qlt_floor y) as H4.
  assert (k < Qfloor y + 1).
  { rewrite Zlt_Qlt. apply (Qle_lt_trans _ y); assumption. }
  assert (Qfloor y < k + 1).
  { rewrite Zlt_Qlt. apply (Qle_lt_trans _ y); assumption. }
  lia.
Qed.

Lemma inject_Z_minus (a b : Z) : inject_Z (a - b) = (inject_Z a - inject_Z b)%Q.
Proof. unfold Z.sub. rewrite inject_Z_plus, inject_Z_opp. reflexivity. Qed.

Lemma round_half_even_comp (x y : Q) : (x == y)%Q -> round_half_even x = round_half_even y.
Proof.
  intros H. unfold round_half_even. rewrite (Qfloor_comp x y H).
  replace ((x - inject_Z (Qfloor y)) ?= 1 # 2)%Q with ((y - inject_Z (Qfloor y)) ?= 1 # 2)%Q;
    [reflexivity|].
  apply Qcompare_comp; [rewrite H|]; reflexivity.
Qed.

Lemma round_half_even_int (k : Z) (q : Q) : (q == inject_Z k)%Q -> round_half_even q = k.
Proof.
  intros H. rewrite (round_half_even_comp q (inject_Z k) H). unfold round_half_even.
  rewrite Qfloor_Z. replace ((inject_Z k - inject_Z k) ?= 1 # 2)%Q with Lt; [reflexivity|].
  symmetry. rewrite <- Qlt_alt. ring_simplify (inject_Z k - inject_Z k)%Q. reflexivity.
Qed.

(** Rounding half to even is symmetric. *)
Lemma round_half_even_opp (y : Q) : round_half_even (- y) = - round_half_even y.
Proof.
  pose proof (Qfloor_le y) as Hf1. pose proof (Qlt_floor y) as Hf2.
  set (f := Qfloor y) in *. rewrite inject_Z_plus in Hf2. change (inject_Z 1) with 1%Q in Hf2.
  destruct (Qeq_dec y (inject_Z f)) as [Heq|Hne].
  - rewrite (round_half_even_int f y Heq), (round_half_even_int (- f)); [reflexivity|].
    rewrite inject_Z_opp, Heq. reflexivity.
  - assert (Hlt : (inject_Z f < y)%Q) by (apply Qle_lt_or_eq in Hf1 as [?|E]; [assumption|];
      exfalso; apply Hne; rewrite E; reflexivity).
    assert (Hg : Qfloor (- y) = - f - 1).
    { apply Qfloor_unique; rewrite ?inject_Z_plus, inject_Z_minus, inject_Z_opp;
        change (inject_Z 1) with 1%Q; lra. }
    unfold round_half_even. rewrite Hg. fold f.
    rewrite inject_Z_minus, inject_Z_opp. change (inject_Z 1) with 1%Q.
    destruct (Qcompare_spec (y - inject_Z f) (1 # 2)) as [E1|E1|E1];
    destruct (Qcompare_spec (- y - (- inject_Z f - 1)) (1 # 2)) as [E2|E2|E2];
      try lra; try lia.
    rewrite Z.even_sub, Z.even_opp. destruct (Z.even f); simpl; lia.
Qed.

Lemma float_of_int_value (z : Z) :
  match float_of_int z with
  | Some v => v = Z.sgn z * Z.abs v
  | None => True
  end.
Proof.
  unfold float_of_int.
  set (sh := Z.max 0 (Z.log2 (Z.abs z) + 1 - 53)).
  assert (Hv : 0 <= round_half_even (inject_Z (Z.abs z) / inject_Z (2 ^ sh)) * 2 ^ sh).
  { apply Z.mul_nonneg_nonneg; [|apply Z.pow_nonneg; lia].
    apply round_half_even_nonneg. apply Qle_shift_div_l.
    - change 0%Q with (inject_Z 0). rewrite <- Zlt_Qlt. apply Z.pow_pos_nonneg; lia.
    - rewrite Qmult_0_l. change 0%Q with (inject_Z 0). rewrite <- Zle_Qle. lia. }
  revert Hv. generalize (round_half_even (inject_Z (Z.abs z) / inject_Z (2 ^ sh)) * 2 ^ sh).
  intros w Hw. destruct (w <? _); [|exact I].
  rewrite Z.abs_mul, (Z.abs_eq w) by exact Hw.
  destruct z; cbn [Z.sgn]; change (Z.abs 1) with 1; change (Z.abs (-1)) with 1; change (Z.abs 0) with 0; lia.
Qed.

(** [float] is exact on integers up to [2^53] in magnitude. *)
Lemma float_of_int_exact (z : Z) : Z.abs z <= 2 ^ 53 -> float_of_int z = Some z.
Proof.
  intros Hz. destruct (Z.eq_dec (Z.abs z) (2 ^ 53)) as [E|E].
  { destruct (Z.abs_spec z) as [[_ Ha]|[_ Ha]]; rewrite Ha in E.
    - subst z. vm_compute. reflexivity.
    - replace z with (- 2 ^ 53) by lia. vm_compute. reflexivity. }
  unfold float_of_int.
  assert (Hl : Z.log2 (Z.abs z) < 53).
  { destruct (Z.eq_dec z 0) as [->|Hz0]; [simpl; lia|].
    apply Z.log2_lt_pow2; lia. }
  replace (Z.max 0 (Z.log2 (Z.abs z) + 1 - 53)) with 0 by lia.
  rewrite (round_half_even_int (Z.abs z)) by (simpl; field).
  rewrite Z.mul_1_r. replace (Z.abs z <? 2 ^ 1024) with true
    by (symmetry; apply Z.ltb_lt; lia).
  destruct z; simpl; f_equal; lia.
Qed.
Lemma digit_char_spec (n : Z) :
  0 <= n -> let c := ascii_of_nat (Z.to_nat (n mod 10) + 48) in
  is_digit c = true /\ digit_val c = n mod 10.
Proof.
  intros Hn c. pose proof (Z.mod_pos_bound n 10 ltac:(lia)) as Hm.
  assert (Hc : nat_of_ascii c = (Z.to_nat (n mod 10) + 48)%nat)
    by (apply nat_ascii_embedding; lia).
  unfold is_digit, digit_val. rewrite Hc. split.
  - apply andb_true_iff. split; apply Nat.leb_le; lia.
  - lia.
Qed.

Lemma digits_rev_spec (fuel : nat) (n : Z) :
  0 <= n < 10 ^ Z.of_nat fuel ->
  forallb is_digit (digits_rev fuel n) = true /\ digits_value (digits_rev fuel n) = n.
Proof.
  revert n. induction fuel as [|f IH]; intros n Hn; simpl.
  - simpl in Hn. split; [reflexivity|]. simpl. lia.
  - destruct (digit_char_spec n (proj1 Hn)) as [Hd Hv].
    pose proof (Z.mod_pos_bound n 10 ltac:(lia)).
    destruct (Z.ltb_spec n 10) as [Hlt|Hge]; simpl; rewrite Hd; simpl.
    + split; [reflexivity|]. rewrite Hv. rewrite Z.mod_small by lia. lia.
    + rewrite Nat2Z.inj_succ, Z.pow_succ_r in Hn by lia.
      destruct (IH (n / 10)) as [IH1 IH2].
      { split; [apply Z.div_pos; lia|]. apply Z.div_lt_upper_bound; lia. }
      split; [exact IH1|]. unfold digits_value in *. simpl. rewrite IH2, Hv.
      pose proof (Z.div_mod n 10 ltac:(lia)). lia.
Qed.

Lemma dec_digits_rev_spec (n : Z) :
  0 <= n ->
  forallb is_digit (dec_digits_rev n) = true /\ digits_value (dec_digits_rev n) = n.
Proof.
  intros Hn. unfold dec_digits_rev. apply digits_rev_spec. split; [exact Hn|].
  set (k := Z.log2 (Z.max 1 n)).
  assert (Hk : 0 <= k) by apply Z.log2_nonneg.
  rewrite Nat2Z.inj_succ, Z2Nat.id by exact Hk.
  destruct (Z.log2_spec (Z.max 1 n)) as [_ H2]; [lia|]. fold k in H2.
  assert (2 ^ Z.succ k <= 10 ^ Z.succ k) by (apply Z.pow_le_mono_l; lia). lia.
Qed.

Lemma digits_val_fold (acc : Z) (l : list ascii) :
  digits_val acc (string_of_list_ascii l)
    = fold_left (fun a c => a * 10 + digit_val c) l acc.
Proof. revert acc. induction l as [|c l IH]; intros acc; simpl; auto. Qed.

Lemma digit_not_sep c : is_digit c = true -> Ascii.eqb c ","%char = false /\ not_dot c = true.
Proof.
  unfold is_digit, not_dot. intros H. apply andb_true_iff in H as [H1 H2].
  apply Nat.leb_le in H1, H2.
  split; [|apply negb_true_iff]; apply Ascii.eqb_neq; intros ->; revert H1 H2;
    vm_compute; lia.
Qed.

Lemma strip_group3 (rd : list ascii) :
  forallb is_digit rd = true ->
  filter not_dot (replace_comma_dot (group3 rd)) = rd.
Proof.
  assert (Hd : forall c, is_digit c = true ->
                 filter not_dot (replace_comma_dot [c]) = [c]).
  { intros c Hc. destruct (digit_not_sep c Hc) as [H1 H2].
    unfold replace_comma_dot. simpl. rewrite H1. simpl. rewrite H2. reflexivity. }
  assert (Happ : forall l1 l2, filter not_dot (replace_comma_dot (l1 ++ l2))
                   = filter not_dot (replace_comma_dot l1) ++ filter not_dot (replace_comma_dot l2))
    by (intros; unfold replace_comma_dot; rewrite map_app, filter_app; reflexivity).
  assert (Hall : forall l, forallb is_digit l = true -> filter not_dot (replace_comma_dot l) = l).
  { induction l as [|c l IH]; intros H; [reflexivity|]. simpl in H.
    apply andb_true_iff in H as [Hc Hl]. change (c :: l) with ([c] ++ l).
    rewrite Happ, Hd, IH; auto. }
  induction rd as [rd IH] using (induction_ltof1 _ (@List.length ascii)).
  destruct rd as [|a [|b [|c [|d rest]]]]; intros H; try (apply Hall; exact H).
  simpl in H. apply andb_true_iff in H as [Ha H]. apply andb_true_iff in H as [Hb H].
  apply andb_true_iff in H as [Hc H].
  change (group3 (a :: b :: c :: d :: rest))
    with ([a; b; c] ++ ","%char :: group3 (d :: rest)).
  rewrite Happ, Hall by (simpl; rewrite Ha, Hb, Hc; reflexivity).
  change (replace_comma_dot (","%char :: group3 (d :: rest)))
    with ("."%char :: replace_comma_dot (group3 (d :: rest))).
  change (filter not_dot ("."%char :: ?l)) with (filter not_dot l).
  rewrite IH; [reflexivity| |exact H].
  unfold ltof. simpl. lia.
Qed.

Lemma filter_rev {A} (f : A -> bool) (l : list A) : filter f (rev l) = rev (filter f l).
Proof.
  induction l as [|x l IH]; simpl; [reflexivity|].
  rewrite filter_app, IH. simpl. destruct (f x); simpl; [reflexivity|apply app_nil_r].
Qed.

Lemma fold_left_rev {A B} (f : A -> B -> A) (l : list B) (a : A) :
  fold_left f (rev l) a = fold_right (fun x y => f y x) a l.
Proof.
  induction l as [|x l IH]; simpl; [reflexivity|]. rewrite fold_left_app, IH. reflexivity.
Qed.

Lemma strip_body (n : Z) :
  0 <= n ->
  let t := filter not_dot (replace_comma_dot (rev (group3 (dec_digits_rev n)))) in
  forallb is_digit t = true /\ digits_val 0 (string_of_list_ascii t) = n.
Proof.
  intros Hn t. destruct (dec_digits_rev_spec n Hn) as [Hd Hv].
  assert (Ht : t = rev (dec_digits_rev n)).
  { unfold t, replace_comma_dot. rewrite map_rev, filter_rev. f_equal.
    apply strip_group3. exact Hd. }
  rewrite Ht, digits_val_fold, fold_left_rev. split.
  - rewrite forallb_forall. intros c Hc. apply in_rev in Hc.
    rewrite forallb_forall in Hd. auto.
  - exact Hv.
Qed.

Lemma read_back_body (neg : bool) (a : Z) :
  0 <= a ->
  let body := rev (group3 (dec_digits_rev a)) in
  read_back (string_of_list_ascii (replace_comma_dot (if neg then "-"%char :: body else body)))
    = Some (if neg then - a else a).
Proof.
  intros Ha body. destruct (strip_body a Ha) as [Hd Hv].
  change (rev (group3 (dec_digits_rev a))) with body in Hd, Hv.
  unfold read_back. rewrite list_ascii_of_string_of_list_ascii.
  set (t := filter not_dot (replace_comma_dot body)) in *.
  destruct neg.
  - change (replace_comma_dot ("-"%char :: body)) with ("-"%char :: replace_comma_dot body).
    change (filter not_dot ("-"%char :: replace_comma_dot body)) with ("-"%char :: t).
    cbn [Ascii.eqb]. rewrite Hd, Hv. reflexivity.
  - replace (filter not_dot (replace_comma_dot (if false then "-"%char :: body else body)))
      with t by reflexivity.
    clearbody t. destruct t as [|c u].
    + simpl in Hv. rewrite <- Hv. reflexivity.
    + simpl in Hd. apply andb_true_iff in Hd as [Hc Hu].
      destruct (digit_not_sep c Hc) as [_ Hc'].
      replace (Ascii.eqb c "-"%char) with false.
      * rewrite Hv. change (forallb is_digit (c :: u)) with (is_digit c && forallb is_digit u).
        rewrite Hc, Hu. reflexivity.
      * symmetry. apply Ascii.eqb_neq. intros ->. discriminate Hc.
Qed.

(** Reading back a KPI figure (dropping the ['.'] separators): a [float]
    gives back its value rounded half to even, ['-0'] reading as 0; an
    [int] gives back the [float] it is converted to, or the formatting
    raises; that conversion is exact up to [2^53] in magnitude and not
    beyond ([2^53 + 1] prints as [2^53]). *)
Theorem format_number_roundtrip :
  (forall x : Q, exists s, format_number (PyFloat x) = Some s /\
                           read_back s = Some (round_half_even x)) /\
  (forall z : Z, match float_of_int z with
                 | Some v => exists s, format_number (PyInt z) = Some s /\ read_back s = Some v
                 | None => format_number (PyInt z) = None
                 end) /\
  (forall z : Z, Z.abs z <= 2 ^ 53 -> float_of_int z = Some z) /\
  float_of_int (2 ^ 53 + 1) = Some (2 ^ 53).
Proof.
  split; [|split; [|split]].
  - intros x. eexists. split; [reflexivity|].
    rewrite read_back_body by (apply round_half_even_nonneg, Qabs_nonneg). f_equal.
    destruct (Qltb x 0) eqn:E.
    + apply Qltb_iff in E.
      rewrite (round_half_even_comp (Qabs x) (- x)) by (apply Qabs_neg; lra).
      rewrite round_half_even_opp. lia.
    + apply Qltb_false in E. apply round_half_even_comp. apply Qabs_pos. lra.
  - intros z. pose proof (float_of_int_value z) as Hv.
    unfold format_number, format_value. destruct (float_of_int z) as [v|]; [|reflexivity].
    eexists. split; [reflexivity|].
    rewrite read_back_body by lia. f_equal.
    destruct (Z.ltb_spec z 0); destruct z; cbn [Z.sgn] in Hv; lia.
  - apply float_of_int_exact.
  - vm_compute. reflexivity.
Qed.







(** ** Rows of the rollup *)


